(** * Markdown renderer of command responses

    A shallow embedding of [server/events/markdown_renderer.go]: the
    [Render] method of [MarkdownRenderer], its helpers
    [renderProjectResults] and [renderTemplate], and the parsed forms of
    the templates the file declares, together with the fragment of Go's
    [text/template] execution and of [strings.Title] that they rely on. *)

From Stdlib Require Import ZArith NArith Ascii String List Lia DecimalString.
From stdpp Require Import base gmap strings list sorting fin_maps.

Set Warnings "-register-all".

Local Open Scope Z_scope.

(** ** Go library fragment: [strings.Title] *)

Module GoStrings.

Definition code (r : ascii) : N := N_of_ascii r.

Definition between (lo hi : N) (r : ascii) : bool :=
  ((lo <=? code r) && (code r <=? hi))%N.

Definition isLower : ascii -> bool := between 97 122.
Definition isUpper : ascii -> bool := between 65 90.
Definition isDigit : ascii -> bool := between 48 57.

(** [isSeparator] of the Go library on the ASCII range: alphanumerics and
    the underscore are not separators, every other ASCII character is.
    A byte above 0x7F belongs to a multi-byte rune, which this byte-level
    model does not decode; it is kept as a non-separator. *)
Definition isSeparator (r : ascii) : bool :=
  if (code r <=? 127)%N
  then negb (isDigit r || isLower r || isUpper r || (code r =? 95)%N)
  else false.

(** [unicode.ToTitle] on the ASCII range. *)
Definition toTitle (r : ascii) : ascii :=
  if isLower r then ascii_of_N (code r - 32) else r.

(** The closure passed to [strings.Map] in [Title], with [prev] threaded
    explicitly. *)
Fixpoint titleFrom (prev : ascii) (s : string) : string :=
  match s with
  | EmptyString => EmptyString
  | String r s' =>
      String (if isSeparator prev then toTitle r else r) (titleFrom r s')
  end.

Definition Title (s : string) : string := titleFrom " "%char s.

(** Strings on which the byte-level model of [Title] is exact. *)
Fixpoint isASCII (s : string) : bool :=
  match s with
  | EmptyString => true
  | String r s' => (code r <=? 127)%N && isASCII s'
  end.

(** A word character: one after which [Title] leaves the next one alone. *)
Definition isWordChar (r : ascii) : bool := negb (isSeparator r).

Fixpoint allWordChars (s : string) : bool :=
  match s with
  | EmptyString => true
  | String r s' => isWordChar r && allWordChars s'
  end.

End GoStrings.

(** ** Go library fragment: values seen by [text/template] *)

(** The data handed to a template, as reflection presents it.  A struct is
    the list of its fields in declaration order; the flag marks an embedded
    (anonymous) field, whose own fields are promoted.  [VNamed] is a value
    of a declared type, with the name reflection gives that type. *)
Inductive value : Type :=
| VNil
| VBool (b : bool)
| VInt (n : Z)
| VString (s : string)
| VMap (m : gmap string string)
| VStruct (fields : list (string * bool * value))
| VNamed (typ : string) (v : value).

(** Keys of a map in the order [range] and [fmt] visit them: sorted. *)
Definition sortedKeys (m : gmap string string) : list string :=
  merge_sort String.le (map fst (map_to_list m)).

Definition mapIndex (m : gmap string string) (k : string) : string :=
  default "" (m !! k).

Definition itoa (n : Z) : string := NilZero.string_of_int (Z.to_int n).

(** The value under the names of its declared types. *)
Fixpoint underlying (v : value) : value :=
  match v with
  | VNamed _ v' => underlying v'
  | _ => v
  end.

Fixpoint findField (name : string) (fs : list (string * bool * value))
  : option value :=
  match fs with
  | [] => None
  | (n, _, v) :: fs' => if String.eqb n name then Some v else findField name fs'
  end.

(** Field selection [.name]: a field of the struct itself first, then the
    promoted fields of its embedded structs. *)
Fixpoint fieldByName (name : string) (v : value) : option value :=
  match v with
  | VStruct fs =>
      match findField name fs with
      | Some x => Some x
      | None =>
          (fix promoted (l : list (string * bool * value)) : option value :=
             match l with
             | [] => None
             | (_, true, e) :: l' =>
                 match fieldByName name e with
                 | Some x => Some x
                 | None => promoted l'
                 end
             | (_, false, _) :: l' => promoted l'
             end) fs
      end
  | VNamed _ v' => fieldByName name v'
  | _ => None
  end.

(** A field name that starts with an ASCII capital is exported. *)
Definition isExported (name : string) : bool :=
  match name with
  | EmptyString => false
  | String c _ => GoStrings.isUpper c
  end.

(** [reflect.Type.String()] of the type of a value. *)
Fixpoint typeString (v : value) : string :=
  match v with
  | VNil => "interface {}"
  | VBool _ => "bool"
  | VInt _ => "int"
  | VString _ => "string"
  | VMap _ => "map[string]string"
  | VStruct fs =>
      match fs with
      | [] => "struct {}"
      | _ =>
          "struct { " +:+ String.concat "; "
            (map (fun f =>
                    match f with
                    | (_, true, x) => typeString x
                    | (n, false, x) => n +:+ " " +:+ typeString x
                    end) fs) +:+ " }"
      end
  | VNamed typ _ => typ
  end.

(** [fmt.Fprint] of a value, as [{{pipeline}}] prints it. *)
Fixpoint printValue (v : value) : string :=
  match v with
  | VNil => "<no value>"
  | VBool b => if b then "true" else "false"
  | VInt n => itoa n
  | VString s => s
  | VMap m =>
      "map[" +:+ String.concat " "
        (map (fun k => k +:+ ":" +:+ mapIndex m k) (sortedKeys m)) +:+ "]"
  | VStruct fs =>
      "{" +:+ String.concat " "
        (map (fun f => match f with (_, _, x) => printValue x end) fs) +:+ "}"
  | VNamed _ v' => printValue v'
  end.

(** Truth of a value in [{{if}}]. *)
Fixpoint isTrue (v : value) : bool :=
  match v with
  | VNil => false
  | VBool b => b
  | VInt n => negb (n =? 0)
  | VString s => negb (String.eqb s "")
  | VMap m => negb (Nat.eqb (size m) 0)
  | VStruct _ => true
  | VNamed _ v' => isTrue v'
  end.

(** ** Go library fragment: executing a parsed template *)

(** Pipelines that occur in the templates of this file. *)
Inductive pipeline : Type :=
| Dot
| Field (name : string)
| Var (name : string)
| Len (arg : pipeline).

Inductive node : Type :=
| Text (s : string)
| Action (p : pipeline)
| If (cond : pipeline) (body : list node)
| Range (key : option string) (elem : string) (p : pipeline) (body : list node).

Definition template : Type := list node.

(** *** The text a template was parsed from *)

(** The source text of a template, with the spelling this file uses for its
    actions: no padding inside the delimiters but for [len] and [range].
    The errors of an execution are located in this text. *)
Fixpoint pipelineSource (p : pipeline) : string :=
  match p with
  | Dot => "."
  | Field name => "." +:+ name
  | Var x => x
  | Len arg => "len " +:+ pipelineSource arg
  end.

Definition actionOpen (p : pipeline) : string :=
  match p with
  | Len _ => "{{ "
  | _ => "{{"
  end.

Definition actionClose (p : pipeline) : string :=
  match p with
  | Len _ => " }}"
  | _ => "}}"
  end.

Definition ifOpen : string := "{{if ".

Definition rangeOpen (key : option string) (elem : string) : string :=
  match key with
  | Some kv => "{{ range " +:+ kv +:+ ", " +:+ elem +:+ " := "
  | None => "{{ range " +:+ elem +:+ " := "
  end.

Fixpoint nodeSource (n : node) : string :=
  let listSource :=
    fix listSource (ns : list node) : string :=
      match ns with
      | [] => ""
      | n' :: ns' => nodeSource n' +:+ listSource ns'
      end in
  match n with
  | Text s => s
  | Action p => actionOpen p +:+ pipelineSource p +:+ actionClose p
  | If cond body =>
      ifOpen +:+ pipelineSource cond +:+ "}}" +:+ listSource body +:+ "{{end}}"
  | Range key elem p body =>
      rangeOpen key elem +:+ pipelineSource p +:+ " }}" +:+ listSource body
      +:+ "{{end}}"
  end.

Fixpoint templateSource (ns : template) : string :=
  match ns with
  | [] => ""
  | n :: ns' => nodeSource n +:+ templateSource ns'
  end.

(** A place in the source text: the line, from 1, and the byte offset in
    the line, from 0, as [ErrorContext] counts them. *)
Record position : Type := { line : nat; column : nat }.

Definition start : position := {| line := 1; column := 0 |}.

Fixpoint advance (at_ : position) (s : string) : position :=
  match s with
  | EmptyString => at_
  | String c s' =>
      advance
        (if Ascii.eqb c (ascii_of_N 10)
         then {| line := S (line at_); column := 0 |}
         else {| line := line at_; column := S (column at_) |})
        s'
  end.

(** *** Errors *)

(** What can go wrong while a template executes.  The last three depend on
    the version of the library in their text or in whether they are errors
    at all. *)
Inductive problem : Type :=
| NoField (field typ : string)
| Unexported (field typ : string)
| UndefinedVariable (name : string)
| BadLen (typ : string)
| BadRange (printed : string).

(** An execution error: the place and the text of the node being evaluated,
    and the problem. *)
Record execError : Type := {
  errorAt : position;
  errorContext : string;
  errorProblem : problem
}.


Definition doubleQuote : string := String (ascii_of_N 34) EmptyString.

Definition problemMessage (p : problem) : string :=
  match p with
  | NoField f typ => "can't evaluate field " +:+ f +:+ " in type " +:+ typ
  | Unexported f typ =>
      f +:+ " is an unexported field of struct type " +:+ typ
  | UndefinedVariable x => "undefined variable: " +:+ x
  | BadLen typ => "error calling len: len of type " +:+ typ
  | BadRange printed => "range can't iterate over " +:+ printed
  end.

(** [err.Error()], for a template of empty name as [template.New] makes
    them here: [template: :line:column: executing QQ at <node>: problem],
    where QQ is the empty name between two double quotes. *)
Definition errorMessage (e : execError) : string :=
  "template: :" +:+ itoa (Z.of_nat (line (errorAt e))) +:+ ":"
  +:+ itoa (Z.of_nat (column (errorAt e))) +:+ ": executing "
  +:+ doubleQuote +:+ doubleQuote +:+ " at <" +:+ errorContext e +:+ ">: "
  +:+ problemMessage (errorProblem e).

Inductive result (A : Type) : Type :=
| Ok (a : A)
| Failed (e : execError).
Arguments Ok {A} a.
Arguments Failed {A} e.

Definition bind {A B} (r : result A) (k : A -> result B) : result B :=
  match r with
  | Ok a => k a
  | Failed e => Failed e
  end.

Notation "'let*' x ':=' r 'in' k" := (bind r (fun x => k))
  (at level 10, x name, r at level 100, k at level 200).

Definition variables : Type := list (string * value).

Fixpoint lookupVar (x : string) (vars : variables) : option value :=
  match vars with
  | [] => None
  | (y, v) :: vars' => if String.eqb y x then Some v else lookupVar x vars'
  end.

(** The value of a pipeline that starts at [at_] in the source text.  A
    field of nil data, like a missing key of a map, is no error: it is the
    invalid value, printed "<no value>". *)
Fixpoint evalPipeline (at_ : position) (dot : value) (vars : variables)
    (p : pipeline) : result value :=
  let fail what :=
    Failed {| errorAt := at_; errorContext := pipelineSource p;
              errorProblem := what |} in
  match p with
  | Dot => Ok dot
  | Field name =>
      match underlying dot with
      | VNil => Ok VNil
      | VMap m =>
          Ok match m !! name with Some s => VString s | None => VNil end
      | _ =>
          match fieldByName name dot with
          | Some v =>
              if isExported name then Ok v
              else fail (Unexported name (typeString dot))
          | None => fail (NoField name (typeString dot))
          end
      end
  | Var x =>
      match lookupVar x vars with
      | Some v => Ok v
      | None => fail (UndefinedVariable x)
      end
  | Len arg =>
      let* v := evalPipeline (advance at_ "len ") dot vars arg in
      match underlying v with
      | VString s => Ok (VInt (Z.of_nat (String.length s)))
      | VMap m => Ok (VInt (Z.of_nat (size m)))
      | _ => fail (BadLen (typeString v))
      end
  end.

(** One pass of a [range] body per key, in sorted key order. *)
Fixpoint rangeOver (body : string -> result string) (keys : list string)
  : result string :=
  match keys with
  | [] => Ok ""
  | k :: keys' =>
      let* s := body k in
      let* rest := rangeOver body keys' in
      Ok (s +:+ rest)
  end.

(** The execution of the node that starts at [at_] in the source text. *)
Fixpoint execNode (at_ : position) (dot : value) (vars : variables) (n : node)
    {struct n} : result string :=
  let execList :=
    fix execList (at_ : position) (dot : value) (vars : variables)
        (ns : list node) : result string :=
      match ns with
      | [] => Ok ""
      | n' :: ns' =>
          let* s := execNode at_ dot vars n' in
          let* rest := execList (advance at_ (nodeSource n')) dot vars ns' in
          Ok (s +:+ rest)
      end in
  match n with
  | Text s => Ok s
  | Action p =>
      let* v := evalPipeline (advance at_ (actionOpen p)) dot vars p in
      Ok (printValue v)
  | If cond body =>
      let* v := evalPipeline (advance at_ ifOpen) dot vars cond in
      if isTrue v
      then execList (advance at_ (ifOpen +:+ pipelineSource cond +:+ "}}"))
             dot vars body
      else Ok ""
  | Range key elem p body =>
      let head := rangeOpen key elem in
      let* v := evalPipeline (advance at_ head) dot vars p in
      match underlying v with
      | VMap m =>
          rangeOver
            (fun k =>
               let e := VString (mapIndex m k) in
               let vars' :=
                 match key with
                 | Some kv => (elem, e) :: (kv, VString k) :: vars
                 | None => (elem, e) :: vars
                 end in
               execList (advance at_ (head +:+ pipelineSource p +:+ " }}"))
                 e vars' body)
            (sortedKeys m)
      | VNil => Ok ""
      | _ =>
          Failed {| errorAt := advance at_ head;
                    errorContext := nodeSource n;
                    errorProblem := BadRange (printValue v) |}
      end
  end.

Fixpoint execList (at_ : position) (dot : value) (vars : variables)
    (ns : list node) : result string :=
  match ns with
  | [] => Ok ""
  | n :: ns' =>
      let* s := execNode at_ dot vars n in
      let* rest := execList (advance at_ (nodeSource n)) dot vars ns' in
      Ok (s +:+ rest)
  end.

(** [tmpl.Execute(buf, data)]: the text written to the buffer, or the
    error.  The variable [$] is bound to the data. *)
Definition Execute (tmpl : template) (data : value) : result string :=
  execList start data [("$", data)] tmpl.

(** ** Types used by the renderer *)

(** Modelled from the spec: the enumeration [CommandName] and its [String]
    method are declared outside this file; the spec names the commands
    Plan, Apply and Help and gives their lower-case string forms. *)
Inductive CommandName : Type := Apply | Plan | Help.

Definition CommandName_eqb (a b : CommandName) : bool :=
  match a, b with
  | Apply, Apply | Plan, Plan | Help, Help => true
  | _, _ => false
  end.

Definition CommandName_String (c : CommandName) : string :=
  match c with
  | Apply => "apply"
  | Plan => "plan"
  | Help => "help"
  end.

(** Modelled from the spec: [PlanSuccess], [ProjectResult] and
    [CommandResponse] are declared outside this file.  A Go [error] is
    kept as its message, [None] standing for [nil]; a nil pointer is
    [None]. *)
Module PlanSuccess.
Record t : Type := Build { TerraformOutput : string; LockURL : string }.
End PlanSuccess.

Module ProjectResult.
Record t : Type := Build {
  Path : string;
  Error : option string;
  Failure : string;
  PlanSuccess : option PlanSuccess.t;
  ApplySuccess : string
}.
End ProjectResult.

Module CommandResponse.
Record t : Type := Build {
  Error : option string;
  Failure : string;
  ProjectResults : list ProjectResult.t
}.
End CommandResponse.

Record CommonData : Type := {
  Command : string;
  Verbose : bool;
  Log : string
}.

Module ErrData.
Record t : Type := Build { Error : string; Common : CommonData }.
End ErrData.

Module FailureData.
Record t : Type := Build { Failure : string; Common : CommonData }.
End FailureData.

Module ResultData.
Record t : Type := Build { Results : gmap string string; Common : CommonData }.
End ResultData.

(** The reflection view of each struct handed to a template, under the
    name of its type in package [events]. *)
Definition CommonData_value (c : CommonData) : value :=
  VNamed "events.CommonData"
    (VStruct [("Command", false, VString (Command c));
              ("Verbose", false, VBool (Verbose c));
              ("Log", false, VString (Log c))]).

Definition ErrData_value (d : ErrData.t) : value :=
  VNamed "events.ErrData"
    (VStruct [("Error", false, VString (ErrData.Error d));
              ("CommonData", true, CommonData_value (ErrData.Common d))]).

Definition FailureData_value (d : FailureData.t) : value :=
  VNamed "events.FailureData"
    (VStruct [("Failure", false, VString (FailureData.Failure d));
              ("CommonData", true, CommonData_value (FailureData.Common d))]).

Definition ResultData_value (d : ResultData.t) : value :=
  VNamed "events.ResultData"
    (VStruct [("Results", false, VMap (ResultData.Results d));
              ("CommonData", true, CommonData_value (ResultData.Common d))]).

Definition PlanSuccess_value (p : PlanSuccess.t) : value :=
  VNamed "events.PlanSuccess"
    (VStruct [("TerraformOutput", false, VString (PlanSuccess.TerraformOutput p));
              ("LockURL", false, VString (PlanSuccess.LockURL p))]).

(** ** The templates, as [template.Must(template.New("").Parse(...))] leaves them *)

Definition nl : string := String (ascii_of_N 10) EmptyString.

Definition helpText : string :=
  "```cmake" +:+ nl +:+
  "atlantis - Terraform collaboration tool that enables you to collaborate on infrastructure" +:+ nl +:+
  "safely and securely." +:+ nl +:+
  nl +:+
  "Usage: atlantis <command> [workspace] [--verbose]" +:+ nl +:+
  nl +:+
  "Commands:" +:+ nl +:+
  "plan           Runs 'terraform plan' on the files changed in the pull request" +:+ nl +:+
  "apply          Runs 'terraform apply' using the plans generated by 'atlantis plan'" +:+ nl +:+
  "help           Get help" +:+ nl +:+
  nl +:+
  "Examples:" +:+ nl +:+
  nl +:+
  "# Generates a plan for staging workspace" +:+ nl +:+
  "atlantis plan staging" +:+ nl +:+
  nl +:+
  "# Generates a plan for a standalone terraform project" +:+ nl +:+
  "atlantis plan" +:+ nl +:+
  nl +:+
  "# Applies a plan for staging workspace" +:+ nl +:+
  "atlantis apply staging" +:+ nl +:+
  nl +:+
  "# Applies a plan for a standalone terraform project" +:+ nl +:+
  "atlantis apply" +:+ nl.

Definition helpTmpl : template := [Text helpText].

Definition logTmpl : template :=
  [If (Field "Verbose")
      [Text (nl +:+ "<details><summary>Log</summary>" +:+ nl +:+ "  <p>" +:+ nl
             +:+ nl +:+ "```" +:+ nl);
       Action (Field "Log");
       Text ("```" +:+ nl +:+ "</p></details>")];
   Text nl].

Definition singleProjectTmpl : template :=
  [Range None "$result" (Field "Results") [Action (Var "$result")];
   Text nl] ++ logTmpl.

Definition multiProjectTmpl : template :=
  [Text "Ran "; Action (Field "Command"); Text " in ";
   Action (Len (Field "Results")); Text (" directories:" +:+ nl);
   Range (Some "$path") "$result" (Field "Results")
     [Text " * `"; Action (Var "$path"); Text ("`" +:+ nl)];
   Text nl;
   Range (Some "$path") "$result" (Field "Results")
     [Text "## "; Action (Var "$path"); Text ("/" +:+ nl);
      Action (Var "$result"); Text (nl +:+ "---" +:+ nl)]]
  ++ logTmpl.

Definition planSuccessTmpl : template :=
  [Text ("```diff" +:+ nl);
   Action (Field "TerraformOutput");
   Text (nl +:+ "```" +:+ nl +:+ nl +:+ "* To **discard** this plan click [here](");
   Action (Field "LockURL");
   Text ")."].

Definition applySuccessTmpl : template :=
  [Text ("```diff" +:+ nl); Action (Field "Output"); Text (nl +:+ "```")].

Definition errTmplText : template :=
  [Text "**"; Action (Field "Command"); Text (" Error**" +:+ nl +:+ "```" +:+ nl);
   Action (Field "Error"); Text (nl +:+ "```" +:+ nl)].

Definition errTmpl : template := errTmplText.
Definition errWithLogTmpl : template := errTmplText ++ logTmpl.

Definition failureTmplText : template :=
  [Text "**"; Action (Field "Command"); Text " Failed**: ";
   Action (Field "Failure"); Text nl].

Definition failureTmpl : template := failureTmplText.
Definition failureWithLogTmpl : template := failureTmplText ++ logTmpl.

(** ** The renderer *)

Definition bugNotice : string := "Failed to render template, this is a bug: ".

Definition renderTemplate (tmpl : template) (data : value) : string :=
  match Execute tmpl data with
  | Failed err => bugNotice +:+ errorMessage err
  | Ok buf => buf
  end.

Definition noTemplate : string := "Found no template. This is a bug!".

(** The body of the loop of [renderProjectResults]: the text stored under
    [result.Path]. *)
Definition renderProjectResult (common : CommonData) (result : ProjectResult.t)
  : string :=
  match ProjectResult.Error result with
  | Some err =>
      renderTemplate errTmpl
        (VStruct [("Command", false, VString (Command common));
                  ("Error", false, VString err)])
  | None =>
      if negb (String.eqb (ProjectResult.Failure result) "") then
        renderTemplate failureTmpl
          (VStruct [("Command", false, VString (Command common));
                    ("Failure", false, VString (ProjectResult.Failure result))])
      else
        match ProjectResult.PlanSuccess result with
        | Some plan => renderTemplate planSuccessTmpl (PlanSuccess_value plan)
        | None =>
            if negb (String.eqb (ProjectResult.ApplySuccess result) "") then
              renderTemplate applySuccessTmpl
                (VStruct [("Output", false,
                           VString (ProjectResult.ApplySuccess result))])
            else noTemplate
        end
  end.

(** The map [results] after the loop. *)
Definition collectResults (common : CommonData)
    (pathResults : list ProjectResult.t) : gmap string string :=
  foldl (fun results result =>
           <[ProjectResult.Path result := renderProjectResult common result]>
             results)
        ∅ pathResults.

Definition renderProjectResults (pathResults : list ProjectResult.t)
    (common : CommonData) : string :=
  let results := collectResults common pathResults in
  let tmpl :=
    if Nat.eqb (size results) 1 then singleProjectTmpl else multiProjectTmpl in
  renderTemplate tmpl (ResultData_value (ResultData.Build results common)).

Section Renderer.

(** The [String] method of [CommandName] is declared outside this file;
    the renderer is read for any such method. *)
Variable cmdString : CommandName -> string.

(** The value [common] that [Render] builds from its arguments. *)
Definition commonData (cmdName : CommandName) (log : string)
    (verbose : bool) : CommonData :=
  let commandStr := GoStrings.Title (cmdString cmdName) in
  {| Command := commandStr; Verbose := verbose; Log := log |}.

Definition Render (res : CommandResponse.t) (cmdName : CommandName)
    (log : string) (verbose : bool) : string :=
  if CommandName_eqb cmdName Help then renderTemplate helpTmpl VNil
  else
    let common := commonData cmdName log verbose in
    match CommandResponse.Error res with
    | Some err =>
        renderTemplate errWithLogTmpl (ErrData_value (ErrData.Build err common))
    | None =>
        if negb (String.eqb (CommandResponse.Failure res) "") then
          renderTemplate failureWithLogTmpl
            (FailureData_value
               (FailureData.Build (CommandResponse.Failure res) common))
        else renderProjectResults (CommandResponse.ProjectResults res) common
    end.

End Renderer.

(** ** Reading the output *)

(** Number of positions of [s] at which [m] starts. *)
Fixpoint occurrences (m s : string) : nat :=
  match s with
  | EmptyString => if String.prefix m s then 1 else 0
  | String _ s' => (if String.prefix m s then 1 else 0) + occurrences m s'
  end%nat.

Fixpoint occursIn (c : ascii) (s : string) : bool :=
  match s with
  | EmptyString => false
  | String a s' => Ascii.eqb a c || occursIn c s'
  end.

Fixpoint endsWith (c : ascii) (s : string) : bool :=
  match s with
  | EmptyString => false
  | String a EmptyString => Ascii.eqb a c
  | String _ s' => endsWith c s'
  end.

(** Concatenation of the texts [f k] for the keys [k], in order. *)
Definition flatMap (f : string -> string) (keys : list string) : string :=
  foldr (fun k acc => f k +:+ acc) "" keys.

(** The first character of a string in upper case, the rest as it is. *)
Definition upperFirst (s : string) : string :=
  match s with
  | EmptyString => EmptyString
  | String c s' => String (GoStrings.toTitle c) s'
  end.

(** The log fragment, as the spec writes it out. *)
Definition logOpen : string :=
  nl +:+ "<details><summary>Log</summary>" +:+ nl +:+ "  <p>" +:+ nl +:+ nl
  +:+ "```" +:+ nl.

Definition logClose : string := "```" +:+ nl +:+ "</p></details>" +:+ nl.

Definition logFragment (verbose : bool) (log : string) : string :=
  if verbose then logOpen +:+ log +:+ logClose else nl.

Definition errText (cmd err : string) : string :=
  "**" +:+ cmd +:+ " Error**" +:+ nl +:+ "```" +:+ nl +:+ err +:+ nl +:+ "```" +:+ nl.

Definition failureText (cmd failure : string) : string :=
  "**" +:+ cmd +:+ " Failed**: " +:+ failure +:+ nl.

Definition planSuccessText (out url : string) : string :=
  "```diff" +:+ nl +:+ out +:+ nl +:+ "```" +:+ nl +:+ nl
  +:+ "* To **discard** this plan click [here](" +:+ url +:+ ").".

Definition applySuccessText (out : string) : string :=
  "```diff" +:+ nl +:+ out +:+ nl +:+ "```".

Definition bullet (path : string) : string := " * `" +:+ path +:+ "`" +:+ nl.

Definition section (results : gmap string string) (path : string) : string :=
  "## " +:+ path +:+ "/" +:+ nl +:+ mapIndex results path +:+ nl +:+ "---" +:+ nl.

Definition multiHeader (cmd : string) (n : Z) : string :=
  "Ran " +:+ cmd +:+ " in " +:+ itoa n +:+ " directories:".

Definition multiText (cmd : string) (results : gmap string string) : string :=
  "Ran " +:+ cmd +:+ " in " +:+ itoa (Z.of_nat (size results))
  +:+ " directories:" +:+ nl
  +:+ flatMap bullet (sortedKeys results) +:+ nl
  +:+ flatMap (section results) (sortedKeys results).

Definition singleText (results : gmap string string) : string :=
  flatMap (mapIndex results) (sortedKeys results) +:+ nl.

(** The text stored for one project, by the first populated field. *)
Definition projectText (cmd : string) (r : ProjectResult.t) : string :=
  match ProjectResult.Error r with
  | Some err => errText cmd err
  | None =>
      if negb (String.eqb (ProjectResult.Failure r) "") then
        failureText cmd (ProjectResult.Failure r)
      else
        match ProjectResult.PlanSuccess r with
        | Some plan =>
            planSuccessText (PlanSuccess.TerraformOutput plan)
              (PlanSuccess.LockURL plan)
        | None =>
            if negb (String.eqb (ProjectResult.ApplySuccess r) "") then
              applySuccessText (ProjectResult.ApplySuccess r)
            else noTemplate
        end
  end.

(** The path and text of each project, in input order. *)
Definition entries (cmd : string) (prs : list ProjectResult.t)
  : list (string * string) :=
  map (fun r => (ProjectResult.Path r, projectText cmd r)) prs.

Definition paths (prs : list ProjectResult.t) : list string :=
  map ProjectResult.Path prs.

(** The map [results]: the last project of each path wins. *)
Definition resultsMap (cmd : string) (prs : list ProjectResult.t)
  : gmap string string :=
  list_to_map (rev (entries cmd prs)).

(** What precedes the log fragment in the output of a command other than
    help. *)
Definition bodyText (cmd : string) (res : CommandResponse.t) : string :=
  match CommandResponse.Error res with
  | Some err => errText cmd err
  | None =>
      if negb (String.eqb (CommandResponse.Failure res) "") then
        failureText cmd (CommandResponse.Failure res)
      else
        let results := resultsMap cmd (CommandResponse.ProjectResults res) in
        if Nat.eqb (size results) 1 then singleText results
        else multiText cmd results
  end.

(** The output contains the header of the multi-project template, for some
    count. *)
Definition hasHeader (cmd out : string) : Prop :=
  exists N : Z, occurrences (multiHeader cmd N) out <> 0%nat.

(** The texts a project result and a response carry. *)
Definition projectTexts (r : ProjectResult.t) : list string :=
  ProjectResult.Path r :: ProjectResult.Failure r :: ProjectResult.ApplySuccess r
  :: match ProjectResult.Error r with Some err => [err] | None => [] end
  ++ match ProjectResult.PlanSuccess r with
     | Some plan => [PlanSuccess.TerraformOutput plan; PlanSuccess.LockURL plan]
     | None => []
     end.

Definition responseTexts (res : CommandResponse.t) : list string :=
  match CommandResponse.Error res with Some err => [err] | None => [] end
  ++ CommandResponse.Failure res
  :: concat (map projectTexts (CommandResponse.ProjectResults res)).

(** None of the texts contains the marker. *)
Definition markerFree (m : string) (texts : list string) : Prop :=
  Forall (fun t => occurrences m t = 0%nat) texts.

(** * Properties *)

(** ** Strings *)

Lemma append_cons (c : ascii) (s t : string) : String c s +:+ t = String c (s +:+ t).
Proof. reflexivity. Qed.

Lemma append_nil_l (s : string) : "" +:+ s = s.
Proof. reflexivity. Qed.

Lemma append_nil_r (s : string) : s +:+ "" = s.
Proof. induction s as [|c s IH]; [reflexivity|]. rewrite append_cons. congruence. Qed.

Lemma append_assoc (s t u : string) : (s +:+ t) +:+ u = s +:+ t +:+ u.
Proof. induction s as [|c s IH]; [reflexivity|]. rewrite !append_cons. congruence. Qed.

Lemma prefix_append (s t : string) : String.prefix s (s +:+ t) = true.
Proof.
  induction s as [|c s IH]; [now destruct t|].
  rewrite append_cons. cbn [String.prefix].
  now destruct (ascii_dec c c).
Qed.

(** ** Template execution *)

Lemma advance_append (at_ : position) (s t : string) :
  advance at_ (s +:+ t) = advance (advance at_ s) t.
Proof.
  revert at_. induction s as [|c s IH]; intros at_; [reflexivity|].
  rewrite append_cons. cbn [advance]. apply IH.
Qed.

Lemma templateSource_app (t1 t2 : template) :
  templateSource (t1 ++ t2) = templateSource t1 +:+ templateSource t2.
Proof.
  induction t1 as [|n t1 IH]; [reflexivity|].
  cbn [app templateSource]. now rewrite IH, append_assoc.
Qed.

Lemma execNode_If at_ dot vars cond body :
  execNode at_ dot vars (If cond body) =
  let* v := evalPipeline (advance at_ ifOpen) dot vars cond in
  if isTrue v
  then execList (advance at_ (ifOpen +:+ pipelineSource cond +:+ "}}"))
         dot vars body
  else Ok "".
Proof. reflexivity. Qed.

Lemma execNode_Range at_ dot vars key elem p body :
  execNode at_ dot vars (Range key elem p body) =
  let* v := evalPipeline (advance at_ (rangeOpen key elem)) dot vars p in
  match underlying v with
  | VMap m =>
      rangeOver
        (fun k =>
           let e := VString (mapIndex m k) in
           execList
             (advance at_ (rangeOpen key elem +:+ pipelineSource p +:+ " }}"))
             e
             match key with
             | Some kv => (elem, e) :: (kv, VString k) :: vars
             | None => (elem, e) :: vars
             end body)
        (sortedKeys m)
  | VNil => Ok ""
  | _ =>
      Failed {| errorAt := advance at_ (rangeOpen key elem);
                errorContext := nodeSource (Range key elem p body);
                errorProblem := BadRange (printValue v) |}
  end.
Proof. reflexivity. Qed.

Lemma execList_app at_ dot vars t1 t2 :
  execList at_ dot vars (t1 ++ t2) =
  let* s := execList at_ dot vars t1 in
  let* rest := execList (advance at_ (templateSource t1)) dot vars t2 in
  Ok (s +:+ rest).
Proof.
  revert at_. induction t1 as [|n t1 IH]; intros at_;
    cbn [app execList bind templateSource advance].
  - destruct (execList at_ dot vars t2); reflexivity.
  - destruct (execNode at_ dot vars n) as [s|e]; cbn [bind]; [|reflexivity].
    rewrite IH, advance_append.
    destruct (execList _ dot vars t1) as [s1|e]; cbn [bind]; [|reflexivity].
    destruct (execList _ dot vars t2) as [s2|e]; cbn [bind]; [|reflexivity].
    now rewrite append_assoc.
Qed.

Lemma rangeOver_ok (body : string -> result string) (f : string -> string) keys :
  (forall k, body k = Ok (f k)) ->
  rangeOver body keys = Ok (flatMap f keys).
Proof.
  intros Hbody. induction keys as [|k keys IH]; [reflexivity|].
  cbn [rangeOver]. rewrite Hbody, IH. reflexivity.
Qed.

(** A field that a struct has, under an exported name. *)
Lemma evalPipeline_field at_ (dot : value) vars name fs v :
  underlying dot = VStruct fs ->
  fieldByName name dot = Some v ->
  isExported name = true ->
  evalPipeline at_ dot vars (Field name) = Ok v.
Proof.
  intros Hu Hf He. cbn [evalPipeline]. now rewrite Hu, Hf, He.
Qed.

Lemma exec_logTmpl at_ (dot : value) vars fs verbose log :
  underlying dot = VStruct fs ->
  fieldByName "Verbose" dot = Some (VBool verbose) ->
  fieldByName "Log" dot = Some (VString log) ->
  execList at_ dot vars logTmpl = Ok (logFragment verbose log).
Proof.
  intros Hd Hv Hl.
  unfold logTmpl. cbn [execList]. rewrite execNode_If.
  rewrite (evalPipeline_field _ _ _ _ _ _ Hd Hv) by reflexivity.
  cbn [bind isTrue].
  destruct verbose; [|reflexivity].
  cbn [execList execNode bind].
  rewrite (evalPipeline_field _ _ _ _ _ _ Hd Hl) by reflexivity.
  cbn [bind printValue].
  unfold logFragment, logOpen, logClose.
  rewrite !append_nil_r, !append_assoc. reflexivity.
Qed.

Lemma execute_helpTmpl : Execute helpTmpl VNil = Ok helpText.
Proof. reflexivity. Qed.

Lemma execute_errTmpl cmd err :
  Execute errTmpl
    (VStruct [("Command", false, VString cmd); ("Error", false, VString err)])
  = Ok (errText cmd err).
Proof. reflexivity. Qed.

Lemma execute_failureTmpl cmd failure :
  Execute failureTmpl
    (VStruct [("Command", false, VString cmd); ("Failure", false, VString failure)])
  = Ok (failureText cmd failure).
Proof. reflexivity. Qed.

Lemma execute_planSuccessTmpl plan :
  Execute planSuccessTmpl (PlanSuccess_value plan)
  = Ok (planSuccessText (PlanSuccess.TerraformOutput plan) (PlanSuccess.LockURL plan)).
Proof. reflexivity. Qed.

Lemma execute_applySuccessTmpl out :
  Execute applySuccessTmpl (VStruct [("Output", false, VString out)])
  = Ok (applySuccessText out).
Proof. reflexivity. Qed.

Lemma execute_errWithLogTmpl err common :
  Execute errWithLogTmpl (ErrData_value (ErrData.Build err common))
  = Ok (errText (Command common) err +:+ logFragment (Verbose common) (Log common)).
Proof.
  unfold Execute, errWithLogTmpl. rewrite execList_app.
  rewrite (exec_logTmpl _ _ _ _ (Verbose common) (Log common)) by reflexivity.
  reflexivity.
Qed.

Lemma execute_failureWithLogTmpl failure common :
  Execute failureWithLogTmpl (FailureData_value (FailureData.Build failure common))
  = Ok (failureText (Command common) failure
        +:+ logFragment (Verbose common) (Log common)).
Proof.
  unfold Execute, failureWithLogTmpl. rewrite execList_app.
  rewrite (exec_logTmpl _ _ _ _ (Verbose common) (Log common)) by reflexivity.
  reflexivity.
Qed.

Lemma execute_singleProjectTmpl results common :
  Execute singleProjectTmpl (ResultData_value (ResultData.Build results common))
  = Ok (singleText results +:+ logFragment (Verbose common) (Log common)).
Proof.
  unfold Execute, singleProjectTmpl. rewrite execList_app.
  rewrite (exec_logTmpl _ _ _ _ (Verbose common) (Log common)) by reflexivity.
  cbn [execList]. rewrite execNode_Range.
  change (evalPipeline _ _ _ (Field "Results")) with (Ok (VMap results)).
  cbn [bind ResultData.Results underlying].
  rewrite (rangeOver_ok _ (fun k => mapIndex results k +:+ "")) by reflexivity.
  cbn [bind execNode]. unfold singleText. rewrite append_nil_r.
  f_equal. f_equal. f_equal. unfold flatMap.
  induction (sortedKeys results) as [|k keys IH]; [reflexivity|].
  cbn [foldr]. now rewrite IH, append_nil_r.
Qed.

Lemma execute_multiProjectTmpl results common :
  Execute multiProjectTmpl (ResultData_value (ResultData.Build results common))
  = Ok (multiText (Command common) results
        +:+ logFragment (Verbose common) (Log common)).
Proof.
  unfold Execute, multiProjectTmpl. rewrite execList_app.
  rewrite (exec_logTmpl _ _ _ _ (Verbose common) (Log common)) by reflexivity.
  cbn [execList]. rewrite !execNode_Range.
  change (evalPipeline _ _ _ (Field "Results")) with (Ok (VMap results)).
  cbn [bind ResultData.Results underlying].
  rewrite (rangeOver_ok _ bullet) by reflexivity.
  rewrite (rangeOver_ok _ (section results)) by reflexivity.
  assert (Hnil : multiText (Command common) results =
                 "Ran " +:+ Command common +:+ " in "
                 +:+ itoa (Z.of_nat (size results)) +:+ " directories:" +:+ nl
                 +:+ flatMap bullet (sortedKeys results) +:+ nl
                 +:+ flatMap (section results) (sortedKeys results) +:+ "")
    by (unfold multiText; now rewrite append_nil_r).
  rewrite Hnil. reflexivity.
Qed.

(** ** The renderer in closed form *)

Lemma renderProjectResult_text common r :
  renderProjectResult common r = projectText (Command common) r.
Proof.
  unfold renderProjectResult, projectText, renderTemplate.
  destruct (ProjectResult.Error r) as [err|].
  { now rewrite execute_errTmpl. }
  destruct (negb (String.eqb (ProjectResult.Failure r) "")).
  { now rewrite execute_failureTmpl. }
  destruct (ProjectResult.PlanSuccess r) as [plan|].
  { now rewrite execute_planSuccessTmpl. }
  destruct (negb (String.eqb (ProjectResult.ApplySuccess r) "")).
  { now rewrite execute_applySuccessTmpl. }
  reflexivity.
Qed.

Lemma collectResults_resultsMap common prs :
  collectResults common prs = resultsMap (Command common) prs.
Proof.
  unfold collectResults, resultsMap, entries.
  rewrite <- (rev_involutive prs) at 1. rewrite <- map_rev.
  induction (rev prs) as [|r l IH]; [reflexivity|].
  cbn [rev map list_to_map]. rewrite foldl_app. cbn [foldl].
  now rewrite IH, renderProjectResult_text.
Qed.

Lemma renderProjectResults_text prs common :
  renderProjectResults prs common =
  (let results := resultsMap (Command common) prs in
   if Nat.eqb (size results) 1 then singleText results
   else multiText (Command common) results)
  +:+ logFragment (Verbose common) (Log common).
Proof.
  unfold renderProjectResults, renderTemplate. rewrite collectResults_resultsMap.
  cbv zeta. destruct (Nat.eqb _ 1).
  - now rewrite execute_singleProjectTmpl.
  - now rewrite execute_multiProjectTmpl.
Qed.

Lemma Render_help cmdString res log verbose :
  Render cmdString res Help log verbose = helpText.
Proof. reflexivity. Qed.

Lemma Render_text cmdString res cmdName log verbose :
  cmdName <> Help ->
  Render cmdString res cmdName log verbose =
  bodyText (GoStrings.Title (cmdString cmdName)) res +:+ logFragment verbose log.
Proof.
  intros Hcmd. unfold Render, bodyText, renderTemplate.
  destruct (CommandName_eqb cmdName Help) eqn:E.
  { destruct cmdName; try discriminate. congruence. }
  destruct (CommandResponse.Error res) as [err|].
  { now rewrite execute_errWithLogTmpl. }
  destruct (negb (String.eqb (CommandResponse.Failure res) "")).
  { now rewrite execute_failureWithLogTmpl. }
  now rewrite renderProjectResults_text.
Qed.


Lemma logFragment_nonempty verbose log : logFragment verbose log <> "".
Proof. destruct verbose; discriminate. Qed.

Lemma CommandName_eqb_eq a b : CommandName_eqb a b = true <-> a = b.
Proof. destruct a, b; cbn; split; congruence. Qed.

(** ** Claims *)

(** The templates of this file, written back as source text, are the Go
    literals they were parsed from. *)
Lemma templateSource_logTmpl :
  templateSource logTmpl
  = "{{if .Verbose}}" +:+ nl +:+ "<details><summary>Log</summary>" +:+ nl
    +:+ "  <p>" +:+ nl +:+ nl +:+ "```" +:+ nl +:+ "{{.Log}}```" +:+ nl
    +:+ "</p></details>{{end}}" +:+ nl.
Proof. reflexivity. Qed.

Lemma templateSource_errWithLogTmpl :
  templateSource errTmpl
  = "**{{.Command}} Error**" +:+ nl +:+ "```" +:+ nl +:+ "{{.Error}}" +:+ nl
    +:+ "```" +:+ nl /\
  templateSource errWithLogTmpl
  = templateSource errTmpl +:+ templateSource logTmpl.
Proof. split; reflexivity. Qed.

Lemma templateSource_failureWithLogTmpl :
  templateSource failureTmpl = "**{{.Command}} Failed**: {{.Failure}}" +:+ nl /\
  templateSource failureWithLogTmpl
  = templateSource failureTmpl +:+ templateSource logTmpl.
Proof. split; reflexivity. Qed.

Lemma templateSource_projectTmpls :
  templateSource singleProjectTmpl
  = "{{ range $result := .Results }}{{$result}}{{end}}" +:+ nl
    +:+ templateSource logTmpl /\
  templateSource multiProjectTmpl
  = "Ran {{.Command}} in {{ len .Results }} directories:" +:+ nl
    +:+ "{{ range $path, $result := .Results }}"
    +:+ " * `{{$path}}`" +:+ nl
    +:+ "{{end}}" +:+ nl
    +:+ "{{ range $path, $result := .Results }}"
    +:+ "## {{$path}}/" +:+ nl
    +:+ "{{$result}}" +:+ nl
    +:+ "---" +:+ nl +:+ "{{end}}"
    +:+ templateSource logTmpl /\
  templateSource planSuccessTmpl
  = "```diff" +:+ nl +:+ "{{.TerraformOutput}}" +:+ nl +:+ "```" +:+ nl +:+ nl
    +:+ "* To **discard** this plan click [here]({{.LockURL}})." /\
  templateSource applySuccessTmpl
  = "```diff" +:+ nl +:+ "{{.Output}}" +:+ nl +:+ "```" /\
  templateSource helpTmpl = helpText.
Proof. repeat split; reflexivity. Qed.



(** C2. For the command Help the output is the rendered help template,
    which is the fixed usage text in a fenced cmake block, whatever the
    response, the log and the verbose flag are. *)
Theorem Render_help_precedence cmdString res log verbose :
  Render cmdString res Help log verbose = renderTemplate helpTmpl VNil /\
  renderTemplate helpTmpl VNil = helpText /\
  String.prefix ("```cmake" +:+ nl +:+ "atlantis - Terraform collaboration tool")
    helpText = true.
Proof. repeat split. Qed.

(** C3. For a command other than Help: with an error the output is the
    rendering of errWithLogTmpl on the message of the error, and no other
    field of the response matters; otherwise with a non-empty failure it is
    the rendering of failureWithLogTmpl on the failure, and the project
    results do not matter; only otherwise the project results are
    rendered. *)
Theorem Render_dispatch_precedence cmdString res cmdName log verbose :
  cmdName <> Help ->
  let common := commonData cmdString cmdName log verbose in
  (forall err,
      CommandResponse.Error res = Some err ->
      Render cmdString res cmdName log verbose =
      renderTemplate errWithLogTmpl (ErrData_value (ErrData.Build err common)) /\
      forall failure prs,
        Render cmdString (CommandResponse.Build (Some err) failure prs)
          cmdName log verbose
        = Render cmdString res cmdName log verbose) /\
  (CommandResponse.Error res = None ->
   CommandResponse.Failure res <> "" ->
   Render cmdString res cmdName log verbose =
   renderTemplate failureWithLogTmpl
     (FailureData_value (FailureData.Build (CommandResponse.Failure res) common)) /\
   forall prs,
     Render cmdString
       (CommandResponse.Build None (CommandResponse.Failure res) prs)
       cmdName log verbose
     = Render cmdString res cmdName log verbose) /\
  (CommandResponse.Error res = None ->
   CommandResponse.Failure res = "" ->
   Render cmdString res cmdName log verbose =
   renderProjectResults (CommandResponse.ProjectResults res) common).
Proof.
  intros Hcmd common. unfold Render.
  destruct (CommandName_eqb cmdName Help) eqn:E.
  { apply CommandName_eqb_eq in E. contradiction. }
  split; [|split].
  - intros err Herr. rewrite Herr. split; [reflexivity|]. intros failure prs.
    reflexivity.
  - intros Herr Hfail. rewrite Herr. apply String.eqb_neq in Hfail.
    cbn [CommandResponse.Error CommandResponse.Failure]. rewrite Hfail.
    split; [reflexivity|]. intros prs. reflexivity.
  - intros Herr Hfail. rewrite Herr, Hfail. reflexivity.
Qed.

Lemma Render_dispatch_precedence_witness :
  Render CommandName_String
    (CommandResponse.Build (Some "boom") "nope"
       [ProjectResult.Build "a" None "" None "done"]) Plan "L" false
  = renderTemplate errWithLogTmpl
      (ErrData_value
         (ErrData.Build "boom" (commonData CommandName_String Plan "L" false))).
Proof.
  refine (proj1 (proj1 (Render_dispatch_precedence CommandName_String
            (CommandResponse.Build (Some "boom") "nope"
               [ProjectResult.Build "a" None "" None "done"])
            Plan "L" false _) "boom" eq_refl)).
  discriminate.
Defined.

(** C4. A response whose error message is "boom", rendered for Plan with
    log "L" and verbose off, gives exactly the error block followed by one
    more newline. *)
Theorem Render_global_error_bytes failure prs :
  Render CommandName_String (CommandResponse.Build (Some "boom") failure prs)
    Plan "L" false
  = "**Plan Error**" +:+ nl +:+ "```" +:+ nl +:+ "boom" +:+ nl +:+ "```" +:+ nl
    +:+ nl.
Proof. reflexivity. Qed.

(** C5. A response with the single project result of path "./" and plan
    success (output "+1", lock URL "u"), rendered for Plan with an empty log
    and verbose off, gives exactly the diff block, the discard line and two
    newlines. *)
Theorem Render_single_plan_success_bytes :
  Render CommandName_String
    (CommandResponse.Build None ""
       [ProjectResult.Build "./" None "" (Some (PlanSuccess.Build "+1" "u")) ""])
    Plan "" false
  = "```diff" +:+ nl +:+ "+1" +:+ nl +:+ "```" +:+ nl +:+ nl
    +:+ "* To **discard** this plan click [here](u)." +:+ nl +:+ nl.
Proof. vm_compute. reflexivity. Qed.

Lemma entries_app cmd l1 l2 : entries cmd (l1 ++ l2) = entries cmd l1 ++ entries cmd l2.
Proof. unfold entries. apply map_app. Qed.

Lemma fst_entries cmd prs : (entries cmd prs).*1 = paths prs.
Proof. unfold entries, paths. induction prs; cbn; congruence. Qed.

Lemma resultsMap_snoc cmd prs r :
  resultsMap cmd (prs ++ [r])
  = <[ProjectResult.Path r := projectText cmd r]> (resultsMap cmd prs).
Proof. unfold resultsMap. rewrite entries_app, rev_app_distr. reflexivity. Qed.

Lemma resultsMap_last_wins cmd before r after :
  ProjectResult.Path r ∉ paths after ->
  resultsMap cmd (before ++ r :: after) !! ProjectResult.Path r
  = Some (projectText cmd r).
Proof.
  intros Hfresh. unfold resultsMap.
  rewrite entries_app, rev_app_distr. cbn [entries map rev].
  rewrite <- !app_assoc, list_to_map_app. cbn [app].
  rewrite lookup_union_r.
  - cbn [list_to_map]. apply lookup_insert_eq.
  - apply not_elem_of_list_to_map_1.
    rewrite <- fst_entries with (cmd := cmd) in Hfresh.
    intros Hin. apply Hfresh.
    apply list_elem_of_fmap in Hin as (e & -> & He).
    apply list_elem_of_fmap. exists e. split; [reflexivity|].
    apply list_elem_of_In. apply list_elem_of_In, in_rev in He. exact He.
Qed.

(** C9. One project result is rendered by its first populated field, tried
    in the order Error, Failure, PlanSuccess, ApplySuccess, each with its
    own template; when all four are empty the text is the literal "Found no
    template. This is a bug!"; and that text is what the map holds for the
    path of the result once the loop is over, unless a later result has the
    same path. *)
Theorem renderProjectResult_selection (common : CommonData)
    (r : ProjectResult.t) :
  (forall err,
      ProjectResult.Error r = Some err ->
      renderProjectResult common r =
      renderTemplate errTmpl
        (VStruct [("Command", false, VString (Command common));
                  ("Error", false, VString err)])) /\
  (ProjectResult.Error r = None ->
   ProjectResult.Failure r <> "" ->
   renderProjectResult common r =
   renderTemplate failureTmpl
     (VStruct [("Command", false, VString (Command common));
               ("Failure", false, VString (ProjectResult.Failure r))])) /\
  (forall plan,
      ProjectResult.Error r = None ->
      ProjectResult.Failure r = "" ->
      ProjectResult.PlanSuccess r = Some plan ->
      renderProjectResult common r =
      renderTemplate planSuccessTmpl (PlanSuccess_value plan)) /\
  (ProjectResult.Error r = None ->
   ProjectResult.Failure r = "" ->
   ProjectResult.PlanSuccess r = None ->
   ProjectResult.ApplySuccess r <> "" ->
   renderProjectResult common r =
   renderTemplate applySuccessTmpl
     (VStruct [("Output", false, VString (ProjectResult.ApplySuccess r))])) /\
  (ProjectResult.Error r = None ->
   ProjectResult.Failure r = "" ->
   ProjectResult.PlanSuccess r = None ->
   ProjectResult.ApplySuccess r = "" ->
   renderProjectResult common r = "Found no template. This is a bug!") /\
  (forall before after,
      ProjectResult.Path r ∉ paths after ->
      collectResults common (before ++ r :: after) !! ProjectResult.Path r
      = Some (renderProjectResult common r)).
Proof.
  unfold renderProjectResult at 1 2 3 4 5. repeat split.
  - intros err ->. reflexivity.
  - intros -> Hf%String.eqb_neq. now rewrite Hf.
  - intros plan -> -> ->. reflexivity.
  - intros -> -> -> Ha%String.eqb_neq. now rewrite Ha.
  - intros -> -> -> ->. reflexivity.
  - intros before after Hfresh.
    rewrite collectResults_resultsMap, renderProjectResult_text.
    now apply resultsMap_last_wins.
Qed.

Lemma renderProjectResult_selection_witness :
  renderProjectResult (commonData CommandName_String Plan "" false)
    (ProjectResult.Build "p" None "" None "")
  = "Found no template. This is a bug!" /\
  collectResults (commonData CommandName_String Plan "" false)
    ([] ++ ProjectResult.Build "p" None "" None "" :: []) !! "p"
  = Some "Found no template. This is a bug!".
Proof.
  pose proof (renderProjectResult_selection
                (commonData CommandName_String Plan "" false)
                (ProjectResult.Build "p" None "" None ""))
    as (_ & _ & _ & _ & Hnone & Hstored).
  split.
  - apply Hnone; reflexivity.
  - refine (eq_trans (Hstored [] [] _) _).
    + apply not_elem_of_nil.
    + exact (f_equal Some (Hnone eq_refl eq_refl eq_refl eq_refl)).
Defined.

(** ** Title casing *)

Lemma titleFrom_word prev s :
  GoStrings.isSeparator prev = false ->
  GoStrings.allWordChars s = true ->
  GoStrings.titleFrom prev s = s.
Proof.
  revert prev. induction s as [|c s IH]; intros prev Hprev Hs; [reflexivity|].
  cbn [GoStrings.allWordChars] in Hs. apply andb_prop in Hs as [Hc Hs].
  cbn [GoStrings.titleFrom]. rewrite Hprev. f_equal. apply IH; [|exact Hs].
  unfold GoStrings.isWordChar in Hc. now apply negb_true_iff in Hc.
Qed.

Lemma Title_word s :
  GoStrings.allWordChars s = true -> GoStrings.Title s = upperFirst s.
Proof.
  destruct s as [|c s]; [reflexivity|]. intros Hs.
  cbn [GoStrings.allWordChars] in Hs. apply andb_prop in Hs as [Hc Hs].
  unfold GoStrings.Title. cbn [GoStrings.titleFrom upperFirst].
  change (GoStrings.isSeparator " ") with true. cbv iota. f_equal.
  apply titleFrom_word; [|exact Hs].
  unfold GoStrings.isWordChar in Hc. now apply negb_true_iff in Hc.
Qed.

Lemma toTitle_separator c :
  GoStrings.isSeparator c = true -> GoStrings.toTitle c = c.
Proof.
  unfold GoStrings.isSeparator, GoStrings.toTitle.
  destruct (GoStrings.isLower c); [|reflexivity].
  rewrite orb_true_r. cbn. now destruct (_ <=? _)%N.
Qed.

Lemma titleFrom_separator prev w c rest :
  GoStrings.isSeparator c = true ->
  GoStrings.titleFrom prev (w +:+ String c rest)
  = GoStrings.titleFrom prev w +:+ String c (GoStrings.Title rest).
Proof.
  intros Hc. revert prev. induction w as [|a w IH]; intros prev.
  - rewrite append_nil_l. cbn [GoStrings.titleFrom]. rewrite append_nil_l.
    rewrite (toTitle_separator c Hc). f_equal.
    + now destruct (GoStrings.isSeparator prev).
    + unfold GoStrings.Title. destruct rest as [|b rest]; [reflexivity|].
      cbn [GoStrings.titleFrom]. rewrite Hc. reflexivity.
  - rewrite append_cons. cbn [GoStrings.titleFrom]. rewrite append_cons.
    f_equal. apply IH.
Qed.

(** C8 (as amended). For a command other than Help whose string form is
    ASCII, the Command token is [strings.Title] of the string form: when the
    string form has only letters, digits and underscores (as "plan" and
    "apply" have), it is the string form with its first character in upper
    case and the rest unchanged, capitals included; when the string form has
    a space or another separator, the part after it is title-cased as well,
    so the first letter of every word is in upper case. *)
Theorem Command_title_case (cmdString : CommandName -> string)
    (cmdName : CommandName) (log : string) (verbose : bool) :
  cmdName <> Help ->
  GoStrings.isASCII (cmdString cmdName) = true ->
  (GoStrings.allWordChars (cmdString cmdName) = true ->
   Command (commonData cmdString cmdName log verbose)
   = upperFirst (cmdString cmdName)) /\
  (forall w c rest,
      cmdString cmdName = w +:+ String c rest ->
      GoStrings.isSeparator c = true ->
      Command (commonData cmdString cmdName log verbose)
      = GoStrings.Title w +:+ String c (GoStrings.Title rest)).
Proof.
  intros _ _. cbn [commonData Command]. split.
  - apply Title_word.
  - intros w c rest -> Hc. now apply titleFrom_separator.
Qed.

Lemma Command_title_case_witness :
  Command (commonData CommandName_String Plan "L" false) = "Plan" /\
  Command (commonData (fun _ => "plan all") Plan "L" false) = "Plan All".
Proof.
  split.
  - refine (proj1 (Command_title_case CommandName_String Plan "L" false _ _) _);
      [discriminate | reflexivity | reflexivity].
  - refine (proj2 (Command_title_case (fun _ => "plan all") Plan "L" false _ _)
              "plan" " "%char "all" _ _);
      [discriminate | reflexivity | reflexivity | reflexivity].
Defined.

(** C8 as the spec states it fails: a string form with a space has the
    first letter of its second word uppercased too. *)
Lemma Command_title_case_counterexample :
  Command (commonData (fun _ => "plan all") Plan "" false) = "Plan All" /\
  Command (commonData (fun _ => "plan all") Plan "" false)
  <> upperFirst "plan all".
Proof. split; [reflexivity | discriminate]. Qed.

(** ** The keys of a map, in the order of [range] *)

Lemma sortedKeys_Permutation (m : gmap string string) :
  sortedKeys m ≡ₚ (map_to_list m).*1.
Proof. apply merge_sort_Permutation. Qed.

Lemma sortedKeys_StronglySorted (m : gmap string string) :
  StronglySorted String.le (sortedKeys m).
Proof. apply StronglySorted_merge_sort; apply _. Qed.

Lemma sortedKeys_NoDup (m : gmap string string) : NoDup (sortedKeys m).
Proof. rewrite sortedKeys_Permutation. apply NoDup_fst_map_to_list. Qed.

Lemma elem_of_sortedKeys (m : gmap string string) (k : string) :
  k ∈ sortedKeys m <-> is_Some (m !! k).
Proof.
  rewrite sortedKeys_Permutation, list_elem_of_fmap. split.
  - intros ([k' v] & -> & Hin). apply elem_of_map_to_list in Hin. now exists v.
  - intros [v Hv]. exists (k, v). split; [reflexivity|].
    now apply elem_of_map_to_list.
Qed.

Lemma length_sortedKeys (m : gmap string string) :
  length (sortedKeys m) = size m.
Proof.
  rewrite sortedKeys_Permutation, length_fmap. apply length_map_to_list.
Qed.

(** A sorted list of the keys is the list [range] visits. *)
Lemma sortedKeys_unique (m : gmap string string) (keys : list string) :
  keys ≡ₚ (map_to_list m).*1 -> Sorted String.le keys -> keys = sortedKeys m.
Proof.
  intros Hperm Hsorted. apply (Sorted_unique String.le); [exact Hsorted| |].
  - apply Sorted_merge_sort; apply _.
  - now rewrite Hperm, sortedKeys_Permutation.
Qed.

(** ** The map of results *)

Lemma fst_rev_entries cmd prs : (rev (entries cmd prs)).*1 ≡ₚ paths prs.
Proof.
  rewrite <- fst_entries with (cmd := cmd).
  rewrite <- Permutation_rev. reflexivity.
Qed.

Lemma NoDup_rev_entries cmd prs :
  NoDup (paths prs) -> NoDup (rev (entries cmd prs)).*1.
Proof. intros Hnd. now rewrite fst_rev_entries. Qed.

Lemma resultsMap_Permutation cmd prs prs' :
  NoDup (paths prs) -> prs ≡ₚ prs' -> resultsMap cmd prs = resultsMap cmd prs'.
Proof.
  intros Hnd Hperm. unfold resultsMap. apply list_to_map_proper.
  - now apply NoDup_rev_entries.
  - rewrite <- !Permutation_rev. unfold entries. now rewrite Hperm.
Qed.

Lemma resultsMap_lookup_NoDup cmd prs r :
  NoDup (paths prs) -> r ∈ prs ->
  resultsMap cmd prs !! ProjectResult.Path r = Some (projectText cmd r).
Proof.
  intros Hnd Hin. unfold resultsMap. apply elem_of_list_to_map_1.
  - now apply NoDup_rev_entries.
  - apply list_elem_of_In, in_rev. rewrite rev_involutive.
    apply list_elem_of_In. unfold entries.
    apply list_elem_of_fmap. now exists r.
Qed.

(** Every entry of the map comes from a project of the input. *)
Lemma resultsMap_lookup_inv cmd prs k v :
  resultsMap cmd prs !! k = Some v ->
  exists r, r ∈ prs /\ ProjectResult.Path r = k /\ projectText cmd r = v.
Proof.
  intros Hlook. unfold resultsMap in Hlook.
  apply elem_of_list_to_map_2 in Hlook.
  apply list_elem_of_In, in_rev, list_elem_of_In in Hlook.
  unfold entries in Hlook. apply list_elem_of_fmap in Hlook as (r & Heq & Hin).
  exists r. inversion Heq. auto.
Qed.

Lemma dom_resultsMap cmd prs :
  dom (resultsMap cmd prs) = list_to_set (paths prs).
Proof.
  unfold resultsMap. rewrite dom_list_to_map_L.
  apply set_eq. intros k. rewrite !elem_of_list_to_set.
  now rewrite fst_rev_entries.
Qed.

Lemma size_resultsMap cmd prs :
  size (resultsMap cmd prs) = length (remove_dups (paths prs)).
Proof.
  rewrite <- (size_dom (D := gset string)), dom_resultsMap.
  rewrite <- (size_list_to_set (C := gset string) (remove_dups (paths prs)))
    by apply NoDup_remove_dups.
  f_equal. apply set_eq. intros k.
  now rewrite !elem_of_list_to_set, elem_of_remove_dups.
Qed.

Lemma size_resultsMap_NoDup cmd prs :
  NoDup (paths prs) -> size (resultsMap cmd prs) = length prs.
Proof.
  intros Hnd. unfold resultsMap. rewrite map_size_list_to_map.
  - unfold entries. now rewrite length_rev, length_map.
  - now apply NoDup_rev_entries.
Qed.

Lemma sortedKeys_resultsMap cmd prs :
  NoDup (paths prs) -> sortedKeys (resultsMap cmd prs) ≡ₚ paths prs.
Proof.
  intros Hnd. rewrite sortedKeys_Permutation. unfold resultsMap.
  rewrite map_to_list_to_map by now apply NoDup_rev_entries.
  apply fst_rev_entries.
Qed.

Lemma Render_results_text cmdString res cmdName log verbose :
  cmdName <> Help ->
  CommandResponse.Error res = None ->
  CommandResponse.Failure res = "" ->
  Render cmdString res cmdName log verbose =
  (let results :=
     resultsMap (GoStrings.Title (cmdString cmdName))
       (CommandResponse.ProjectResults res) in
   if Nat.eqb (size results) 1 then singleText results
   else multiText (GoStrings.Title (cmdString cmdName)) results)
  +:+ logFragment verbose log.
Proof.
  intros Hcmd Herr Hfail. rewrite Render_text by exact Hcmd.
  unfold bodyText. now rewrite Herr, Hfail.
Qed.

Lemma sortedKeys_resultsMap_remove_dups cmd prs :
  sortedKeys (resultsMap cmd prs) ≡ₚ remove_dups (paths prs).
Proof.
  apply NoDup_Permutation.
  - apply sortedKeys_NoDup.
  - apply NoDup_remove_dups.
  - intros k. rewrite elem_of_sortedKeys, elem_of_remove_dups.
    rewrite <- elem_of_dom, dom_resultsMap. apply elem_of_list_to_set.
Qed.

(** C10. In the results branch with two or more distinct project paths,
    the output is the multi-project text over one list of the distinct
    paths: that list is in ascending lexicographic order, the bullet list
    and the sections both follow it, each section holds the text of the
    (last) project of its path; and when the paths of the projects are
    pairwise distinct the output is the same for every reordering of the
    project results. *)
Theorem multi_project_sorted_order (cmdString : CommandName -> string)
    (res : CommandResponse.t) (cmdName : CommandName) (log : string)
    (verbose : bool) :
  cmdName <> Help ->
  CommandResponse.Error res = None ->
  CommandResponse.Failure res = "" ->
  (2 <= length (remove_dups (paths (CommandResponse.ProjectResults res))))%nat ->
  let cmd := GoStrings.Title (cmdString cmdName) in
  let prs := CommandResponse.ProjectResults res in
  exists keys : list string,
    keys ≡ₚ remove_dups (paths prs) /\
    StronglySorted String.le keys /\
    NoDup keys /\
    (forall before r after,
       prs = before ++ r :: after ->
       ProjectResult.Path r ∉ paths after ->
       mapIndex (resultsMap cmd prs) (ProjectResult.Path r) = projectText cmd r) /\
    Render cmdString res cmdName log verbose =
      "Ran " +:+ cmd +:+ " in " +:+ itoa (Z.of_nat (length keys))
      +:+ " directories:" +:+ nl
      +:+ flatMap bullet keys +:+ nl
      +:+ flatMap (section (resultsMap cmd prs)) keys
      +:+ logFragment verbose log /\
    (NoDup (paths prs) ->
     forall prs',
       prs' ≡ₚ prs ->
       Render cmdString (CommandResponse.Build None "" prs') cmdName log verbose
       = Render cmdString res cmdName log verbose).
Proof.
  intros Hcmd Herr Hfail Hlen cmd prs.
  exists (sortedKeys (resultsMap cmd prs)).
  assert (Hsize : size (resultsMap cmd prs) <> 1%nat).
  { rewrite size_resultsMap. fold prs in Hlen. lia. }
  split; [apply sortedKeys_resultsMap_remove_dups|].
  split; [apply sortedKeys_StronglySorted|].
  split; [apply sortedKeys_NoDup|].
  split.
  { intros before r after Hprs Hfresh. unfold mapIndex.
    now rewrite Hprs, (resultsMap_last_wins cmd before r after Hfresh). }
  assert (Hmulti : Render cmdString res cmdName log verbose =
                   multiText cmd (resultsMap cmd prs) +:+ logFragment verbose log).
  { rewrite Render_results_text by assumption. cbv zeta. fold cmd prs.
    now destruct (Nat.eqb_spec (size (resultsMap cmd prs)) 1). }
  split.
  - rewrite Hmulti. unfold multiText.
    rewrite length_sortedKeys, !append_assoc. reflexivity.
  - intros Hnd prs' Hperm.
    rewrite Hmulti, Render_results_text by (assumption || reflexivity).
    cbv zeta. fold cmd. cbn [CommandResponse.ProjectResults].
    symmetry in Hperm.
    rewrite <- (resultsMap_Permutation cmd prs prs' Hnd Hperm).
    now destruct (Nat.eqb_spec (size (resultsMap cmd prs)) 1).
Qed.

Lemma multi_project_sorted_order_witness :
  Render CommandName_String
    (CommandResponse.Build None ""
       [ProjectResult.Build "a" None "" None "done";
        ProjectResult.Build "b" None "locked" None ""]) Apply "" false
  = Render CommandName_String
      (CommandResponse.Build None ""
         [ProjectResult.Build "b" None "locked" None "";
          ProjectResult.Build "a" None "" None "done"]) Apply "" false.
Proof.
  destruct (multi_project_sorted_order CommandName_String
              (CommandResponse.Build None ""
                 [ProjectResult.Build "b" None "locked" None "";
                  ProjectResult.Build "a" None "" None "done"])
              Apply "" false)
    as (keys & _ & _ & _ & _ & _ & Hperm).
  - discriminate.
  - reflexivity.
  - reflexivity.
  - vm_compute. lia.
  - apply Hperm.
    + apply (bool_decide_unpack _). vm_compute. exact I.
    + apply perm_swap.
Defined.

(** ** Single- and multi-project framing *)

Lemma prefix_head_ne (c d : ascii) (s t : string) :
  c <> d -> String.prefix (String c s) (String d t) = false.
Proof. intros Hne. cbn [String.prefix]. now destruct (ascii_dec c d). Qed.

Lemma projectText_head cmd r :
  exists c rest, projectText cmd r = String c rest /\ "R"%char <> c.
Proof.
  unfold projectText.
  destruct (ProjectResult.Error r);
    [|destruct (negb _);
      [|destruct (ProjectResult.PlanSuccess r); [|destruct (negb _)]]];
    eexists _, _; (split; [reflexivity|discriminate]).
Qed.

Lemma sortedKeys_singleton (m : gmap string string) :
  size m = 1%nat -> exists k v, sortedKeys m = [k] /\ m !! k = Some v.
Proof.
  intros Hsize. rewrite <- length_sortedKeys in Hsize.
  destruct (sortedKeys m) as [|k [|k' ks]] eqn:Hkeys; try discriminate.
  assert (Hin : k ∈ sortedKeys m) by (rewrite Hkeys; apply list_elem_of_here).
  apply elem_of_sortedKeys in Hin as [v Hv]. now exists k, v.
Qed.

Lemma singleText_one cmd prs :
  size (resultsMap cmd prs) = 1%nat ->
  exists r, r ∈ prs /\
    singleText (resultsMap cmd prs) = projectText cmd r +:+ nl.
Proof.
  intros Hsize. destruct (sortedKeys_singleton _ Hsize) as (k & v & Hkeys & Hv).
  destruct (resultsMap_lookup_inv _ _ _ _ Hv) as (r & Hin & _ & Htext).
  exists r. split; [exact Hin|].
  unfold singleText, flatMap, mapIndex. rewrite Hkeys. cbn [foldr].
  now rewrite Hv, append_nil_r, Htext.
Qed.

(** C7 (as amended). In the results branch, with [n] the number of distinct
    paths among the project results: the output begins with the header
    "Ran {Cmd} in n directories:" when [n] is not 1, and begins with no such
    header when [n] is 1; [n] is the number of project results when their
    paths are pairwise distinct; and an empty sequence is rendered with the
    multi-project template and the count 0. *)
Theorem project_framing (cmdString : CommandName -> string)
    (res : CommandResponse.t) (cmdName : CommandName) (log : string)
    (verbose : bool) :
  cmdName <> Help ->
  CommandResponse.Error res = None ->
  CommandResponse.Failure res = "" ->
  let cmd := GoStrings.Title (cmdString cmdName) in
  let prs := CommandResponse.ProjectResults res in
  let n := length (remove_dups (paths prs)) in
  let out := Render cmdString res cmdName log verbose in
  (n <> 1%nat -> String.prefix (multiHeader cmd (Z.of_nat n)) out = true) /\
  (n = 1%nat -> forall N, String.prefix (multiHeader cmd N) out = false) /\
  (NoDup (paths prs) -> n = length prs) /\
  (prs = [] ->
   out = multiHeader cmd 0 +:+ nl +:+ nl +:+ logFragment verbose log).
Proof.
  intros Hcmd Herr Hfail cmd prs n out.
  assert (Hout : out =
            (if Nat.eqb n 1 then singleText (resultsMap cmd prs)
             else multiText cmd (resultsMap cmd prs))
            +:+ logFragment verbose log).
  { unfold out. rewrite Render_results_text by assumption. cbv zeta.
    fold cmd prs. now rewrite size_resultsMap. }
  split; [|split; [|split]].
  - intros Hn. rewrite Hout. apply Nat.eqb_neq in Hn. rewrite Hn.
    unfold multiText. rewrite size_resultsMap. fold n.
    replace ("Ran " +:+ cmd +:+ " in " +:+ itoa (Z.of_nat n) +:+ " directories:"
             +:+ nl +:+ flatMap bullet (sortedKeys (resultsMap cmd prs)) +:+ nl
             +:+ flatMap (section (resultsMap cmd prs))
                   (sortedKeys (resultsMap cmd prs)))
      with (multiHeader cmd (Z.of_nat n)
            +:+ (nl +:+ flatMap bullet (sortedKeys (resultsMap cmd prs)) +:+ nl
                 +:+ flatMap (section (resultsMap cmd prs))
                       (sortedKeys (resultsMap cmd prs))))
      by (unfold multiHeader; now rewrite !append_assoc).
    rewrite append_assoc. apply prefix_append.
  - intros Hn N. rewrite Hout, Hn. cbn [Nat.eqb].
    destruct (singleText_one cmd prs) as (r & _ & ->).
    { rewrite size_resultsMap. exact Hn. }
    destruct (projectText_head cmd r) as (c & rest & -> & Hc).
    unfold multiHeader. rewrite !append_cons. now apply prefix_head_ne.
  - intros Hnd. unfold n.
    now rewrite <- (size_resultsMap cmd), size_resultsMap_NoDup.
  - intros Hnil. rewrite Hout. unfold n. rewrite Hnil.
    cbn [paths map remove_dups length Nat.eqb].
    unfold multiText, multiHeader. rewrite !append_assoc. reflexivity.
Qed.

Lemma project_framing_witness :
  String.prefix (multiHeader "Apply" 2)
    (Render CommandName_String
       (CommandResponse.Build None ""
          [ProjectResult.Build "b" None "locked" None "";
           ProjectResult.Build "a" None "" None "done"]) Apply "" false)
  = true.
Proof.
  refine (proj1 (project_framing CommandName_String
            (CommandResponse.Build None ""
               [ProjectResult.Build "b" None "locked" None "";
                ProjectResult.Build "a" None "" None "done"])
            Apply "" false _ eq_refl eq_refl) _).
  - discriminate.
  - vm_compute. lia.
Defined.

(** C7 as the spec states it fails: two project results of the same path
    are rendered with the single-project template, without the header; and
    a single project result whose text holds the header is rendered with
    the single-project template, with the header in the output. *)
Lemma project_framing_counterexample :
  let twice :=
    CommandResponse.Build None ""
      [ProjectResult.Build "a" None "" None "x";
       ProjectResult.Build "a" None "" None "y"] in
  let once :=
    CommandResponse.Build None ""
      [ProjectResult.Build "a" None "" None "Ran Apply in 1 directories:"] in
  Render CommandName_String twice Apply "" false
  = "```diff" +:+ nl +:+ "y" +:+ nl +:+ "```" +:+ nl +:+ nl /\
  ~ (hasHeader "Apply" (Render CommandName_String twice Apply "" false) <->
     length (CommandResponse.ProjectResults twice) <> 1%nat) /\
  ~ (hasHeader "Apply" (Render CommandName_String once Apply "" false) <->
     length (CommandResponse.ProjectResults once) <> 1%nat).
Proof.
  cbv zeta. split; [vm_compute; reflexivity|]. split.
  - intros [_ Hhas]. destruct Hhas as [N HN]; [cbn; lia|].
    apply HN. replace (Render _ _ _ _ _) with
      ("```diff" +:+ nl +:+ "y" +:+ nl +:+ "```" +:+ nl +:+ nl)
      by (vm_compute; reflexivity).
    reflexivity.
  - intros [Hlen _]. apply Hlen; [|reflexivity].
    exists 1. vm_compute. discriminate.
Qed.

(** ** Occurrences of a marker *)

Lemma occurrences_nil (c : ascii) (m : string) : occurrences (String c m) "" = 0%nat.
Proof. reflexivity. Qed.

Lemma occursIn_string_of_uint (c : ascii) (d : Decimal.uint) :
  GoStrings.isDigit c = false -> occursIn c (NilEmpty.string_of_uint d) = false.
Proof.
  intros Hc. induction d; cbn [NilEmpty.string_of_uint occursIn];
    try reflexivity; rewrite IHd, orb_false_r;
    apply Ascii.eqb_neq; intros <-; discriminate Hc.
Qed.

Lemma occursIn_itoa (c : ascii) (n : Z) :
  GoStrings.isDigit c = false -> c <> "-"%char -> occursIn c (itoa n) = false.
Proof.
  intros Hc Hminus. unfold itoa, NilZero.string_of_int, NilZero.string_of_uint.
  assert (Hzero : Ascii.eqb "0" c = false)
    by (apply Ascii.eqb_neq; intros <-; discriminate Hc).
  assert (Hneg : Ascii.eqb "-" c = false)
    by (apply Ascii.eqb_neq; intros <-; now apply Hminus).
  destruct (Z.to_int n) as [d|d]; cbn [occursIn]; rewrite ?Hneg, ?orb_false_l;
    (destruct d;
     [ cbn [occursIn]; now rewrite Hzero
     | apply (occursIn_string_of_uint c _ Hc) .. ]).
Qed.

Section Marker.

(** A marker that opens with "<". *)
Variable tail : string.
Local Abbreviation m := (String "<" tail).

Lemma occurrences_skip (c : ascii) (s : string) :
  c <> "<"%char -> occurrences m (String c s) = occurrences m s.
Proof.
  intros Hc. cbn [occurrences].
  rewrite prefix_head_ne by congruence. reflexivity.
Qed.

Lemma occurrences_free (s : string) :
  occursIn "<" s = false -> occurrences m s = 0%nat.
Proof.
  induction s as [|c s IH]; [reflexivity|]. cbn [occursIn].
  intros [Hc Hs]%orb_false_elim. apply Ascii.eqb_neq in Hc.
  rewrite occurrences_skip by exact Hc. now apply IH.
Qed.

Lemma prefix_cut (p x y : string) (c : ascii) :
  occursIn c p = false ->
  String.prefix p (x +:+ String c y) = String.prefix p x.
Proof.
  revert x. induction p as [|a p IH]; intros x Hc.
  - now destruct x.
  - cbn [occursIn] in Hc. apply orb_false_elim in Hc as [Hac Hp].
    apply Ascii.eqb_neq in Hac. destruct x as [|b x].
    + rewrite append_nil_l. now apply prefix_head_ne.
    + rewrite append_cons. cbn [String.prefix].
      destruct (ascii_dec a b); [now apply IH|reflexivity].
Qed.

Lemma occurrences_cut (x y : string) (c : ascii) :
  occursIn c m = false ->
  occurrences m (x +:+ String c y) = (occurrences m x + occurrences m y)%nat.
Proof.
  intros Hc. induction x as [|a x IH].
  - rewrite append_nil_l. cbn [occurrences].
    change (String c y) with ("" +:+ String c y) at 1.
    now rewrite prefix_cut.
  - rewrite append_cons. cbn [occurrences]. rewrite IH.
    change (String a (x +:+ String c y)) with (String a x +:+ String c y).
    rewrite prefix_cut by exact Hc. lia.
Qed.

Lemma prefix_snoc (p x : string) (d : ascii) :
  p <> "" -> endsWith d p = false ->
  String.prefix p (x +:+ String d "") = String.prefix p x.
Proof.
  revert x. induction p as [|a p IH]; intros x Hne Hd; [congruence|].
  destruct x as [|b x].
  - rewrite append_nil_l. cbn [String.prefix].
    destruct (ascii_dec a d) as [->|]; [|reflexivity].
    destruct p; [|reflexivity]. cbn in Hd. now rewrite Ascii.eqb_refl in Hd.
  - rewrite append_cons. cbn [String.prefix].
    destruct (ascii_dec a b); [|reflexivity].
    destruct p as [|a' p]; [now destruct x|].
    apply IH; [discriminate|exact Hd].
Qed.

Lemma occurrences_snoc (x : string) (d : ascii) :
  endsWith d m = false ->
  occurrences m (x +:+ String d "") = occurrences m x.
Proof.
  intros Hd. induction x as [|a x IH].
  - rewrite append_nil_l. cbn [occurrences].
    change (String d "") with ("" +:+ String d "") at 1.
    rewrite prefix_snoc by (discriminate || exact Hd). reflexivity.
  - rewrite append_cons. cbn [occurrences]. rewrite IH.
    change (String a (x +:+ String d "")) with (String a x +:+ String d "").
    rewrite prefix_snoc by (discriminate || exact Hd). reflexivity.
Qed.

Lemma occurrences_cut2 (x y : string) (d c : ascii) :
  endsWith d m = false -> occursIn c m = false ->
  occurrences m (x +:+ String d (String c y))
  = (occurrences m x + occurrences m y)%nat.
Proof.
  intros Hd Hc.
  change (String d (String c y)) with (String d "" +:+ String c y).
  rewrite <- append_assoc, occurrences_cut by exact Hc.
  now rewrite occurrences_snoc.
Qed.

End Marker.

Section MarkerInOutput.

Variable tail : string.
Local Abbreviation m := (String "<" tail).

Hypothesis Hspace : occursIn " " m = false.
Hypothesis Hnewline : occursIn (ascii_of_N 10) m = false.
Hypothesis Hbackquote : occursIn "`" m = false.
Hypothesis Hparen : occursIn ")" m = false.
Hypothesis Hslash : endsWith "/" m = false.

Local Ltac side := first [exact Hspace | exact Hnewline | exact Hbackquote
                         | exact Hparen | exact Hslash].

Local Ltac occ_step :=
  first
    [ rewrite (occurrences_skip tail) by discriminate
    | rewrite occurrences_nil
    | rewrite (occurrences_cut2 tail) by side
    | rewrite (occurrences_cut tail) by side ].

Local Ltac occ_norm :=
  unfold nl; rewrite ?append_assoc; rewrite ?append_cons, ?append_nil_l;
  repeat occ_step.

Lemma occurrences_errText cmd err rest :
  occurrences m cmd = 0%nat -> occurrences m err = 0%nat ->
  occurrences m (errText cmd err +:+ rest) = occurrences m rest.
Proof.
  intros Hcmd Herr. unfold errText. occ_norm.
  now rewrite Hcmd, Herr.
Qed.

Lemma occurrences_failureText cmd failure rest :
  occurrences m cmd = 0%nat -> occurrences m failure = 0%nat ->
  occurrences m (failureText cmd failure +:+ rest) = occurrences m rest.
Proof.
  intros Hcmd Hfail. unfold failureText. occ_norm.
  now rewrite Hcmd, Hfail.
Qed.

Lemma occurrences_planSuccessText out url rest :
  occurrences m out = 0%nat -> occurrences m url = 0%nat ->
  occurrences m (planSuccessText out url +:+ String (ascii_of_N 10) rest)
  = occurrences m rest.
Proof.
  intros Hout Hurl. unfold planSuccessText. occ_norm.
  now rewrite Hout, Hurl.
Qed.

Lemma occurrences_applySuccessText out rest :
  occurrences m out = 0%nat ->
  occurrences m (applySuccessText out +:+ String (ascii_of_N 10) rest)
  = occurrences m rest.
Proof.
  intros Hout. unfold applySuccessText. occ_norm.
  now rewrite Hout.
Qed.

Lemma occurrences_noTemplate rest :
  occurrences m (noTemplate +:+ rest) = occurrences m rest.
Proof. unfold noTemplate. occ_norm. reflexivity. Qed.

Lemma occurrences_projectText cmd r rest :
  occurrences m cmd = 0%nat ->
  markerFree m (projectTexts r) ->
  occurrences m (projectText cmd r +:+ String (ascii_of_N 10) rest)
  = occurrences m rest.
Proof.
  intros Hcmd Hr. unfold markerFree, projectTexts in Hr.
  rewrite !Forall_cons, Forall_app in Hr.
  destruct Hr as (Hpath & Hfail & Happly & Herr & Hplan).
  unfold projectText.
  destruct (ProjectResult.Error r) as [err|].
  { rewrite Forall_singleton in Herr.
    rewrite occurrences_errText by assumption.
    now rewrite (occurrences_skip tail) by discriminate. }
  destruct (negb (String.eqb (ProjectResult.Failure r) "")).
  { rewrite occurrences_failureText by assumption.
    now rewrite (occurrences_skip tail) by discriminate. }
  destruct (ProjectResult.PlanSuccess r) as [plan|].
  { rewrite !Forall_cons in Hplan. destruct Hplan as (Hout & Hurl & _).
    now apply occurrences_planSuccessText. }
  destruct (negb (String.eqb (ProjectResult.ApplySuccess r) "")).
  { now apply occurrences_applySuccessText. }
  rewrite occurrences_noTemplate.
  now rewrite (occurrences_skip tail) by discriminate.
Qed.

Lemma occurrences_flatMap (f : string -> string) keys rest :
  (forall k rest', k ∈ keys ->
     occurrences m (f k +:+ rest') = occurrences m rest') ->
  occurrences m (flatMap f keys +:+ rest) = occurrences m rest.
Proof.
  induction keys as [|k keys IH]; intros Hf; [reflexivity|].
  unfold flatMap. cbn [foldr]. fold (flatMap f keys).
  rewrite append_assoc, Hf by apply list_elem_of_here.
  apply IH. intros k' rest' Hin. apply Hf. now apply list_elem_of_further.
Qed.

Lemma occurrences_bullet path rest :
  occurrences m path = 0%nat ->
  occurrences m (bullet path +:+ rest) = occurrences m rest.
Proof. intros Hpath. unfold bullet. occ_norm. now rewrite Hpath. Qed.

Lemma occurrences_section results path text rest :
  occurrences m path = 0%nat ->
  mapIndex results path = text ->
  (forall rest', occurrences m (text +:+ String (ascii_of_N 10) rest')
                 = occurrences m rest') ->
  occurrences m (section results path +:+ rest) = occurrences m rest.
Proof.
  intros Hpath Hmap Htext. unfold section. rewrite Hmap.
  unfold nl; rewrite ?append_assoc; rewrite ?append_cons, ?append_nil_l.
  rewrite !(occurrences_skip tail) by discriminate.
  rewrite (occurrences_cut2 tail) by side. rewrite Hpath, Htext.
  repeat occ_step. reflexivity.
Qed.

Lemma markerFree_project (res : CommandResponse.t) (r : ProjectResult.t) :
  markerFree m (responseTexts res) ->
  r ∈ CommandResponse.ProjectResults res ->
  markerFree m (projectTexts r).
Proof.
  unfold markerFree, responseTexts. rewrite Forall_app, Forall_cons.
  intros (_ & _ & Hall) Hin. rewrite Forall_concat, Forall_forall in Hall.
  apply Hall. apply list_elem_of_fmap. now exists r.
Qed.

Lemma occurrences_bodyText cmd res rest :
  occurrences m cmd = 0%nat ->
  markerFree m (responseTexts res) ->
  occurrences m (bodyText cmd res +:+ rest) = occurrences m rest.
Proof.
  intros Hcmd Hres. pose proof (markerFree_project res) as Hproj.
  specialize (Hproj) with (1 := Hres).
  unfold markerFree, responseTexts in Hres.
  rewrite Forall_app, Forall_cons in Hres. destruct Hres as (Herr & Hfail & _).
  unfold bodyText.
  destruct (CommandResponse.Error res) as [err|].
  { rewrite Forall_singleton in Herr. now apply occurrences_errText. }
  destruct (negb (String.eqb (CommandResponse.Failure res) "")).
  { now apply occurrences_failureText. }
  cbv zeta. set (prs := CommandResponse.ProjectResults res) in *.
  destruct (Nat.eqb_spec (size (resultsMap cmd prs)) 1) as [Hone|Hmany].
  - destruct (singleText_one cmd prs Hone) as (r & Hin & ->).
    rewrite append_assoc. unfold nl. rewrite append_cons, append_nil_l.
    apply occurrences_projectText; [exact Hcmd|now apply Hproj].
  - assert (Hkey : forall k, k ∈ sortedKeys (resultsMap cmd prs) ->
                exists r, r ∈ prs /\ ProjectResult.Path r = k /\
                  mapIndex (resultsMap cmd prs) k = projectText cmd r).
    { intros k [v Hv]%elem_of_sortedKeys.
      destruct (resultsMap_lookup_inv _ _ _ _ Hv) as (r & Hin & Hpath & Htext).
      exists r. unfold mapIndex. rewrite Hv. auto. }
    assert (Hpath : forall r, r ∈ prs ->
                occurrences m (ProjectResult.Path r) = 0%nat).
    { intros r Hin. specialize (Hproj r Hin).
      unfold markerFree, projectTexts in Hproj.
      rewrite Forall_cons in Hproj. tauto. }
    unfold multiText.
    unfold nl; rewrite ?append_assoc; rewrite ?append_cons, ?append_nil_l.
    rewrite !(occurrences_skip tail) by discriminate.
    rewrite (occurrences_cut tail) by side.
    rewrite !(occurrences_skip tail) by discriminate.
    rewrite (occurrences_cut tail) by side.
    rewrite !(occurrences_skip tail) by discriminate.
    rewrite (occurrences_cut tail) by side.
    rewrite (occurrences_free tail (itoa _))
      by (apply occursIn_itoa; [reflexivity|discriminate]).
    rewrite Hcmd.
    rewrite <- (append_nil_r (flatMap bullet _)).
    rewrite !occurrences_flatMap; [reflexivity| |].
    + intros k rest' Hin. destruct (Hkey k Hin) as (r & Hr & <- & Htext).
      apply (occurrences_section _ _ (projectText cmd r));
        [now apply Hpath | exact Htext |].
      intros rest''. apply occurrences_projectText; [exact Hcmd|now apply Hproj].
    + intros k rest' Hin. destruct (Hkey k Hin) as (r & Hr & <- & _).
      apply occurrences_bullet. now apply Hpath.
Qed.

End MarkerInOutput.

Lemma occurrences_hit (m s : string) (c : ascii) :
  String.prefix m (String c s) = true ->
  occurrences m (String c s) = S (occurrences m s).
Proof. intros Hp. cbn [occurrences]. now rewrite Hp. Qed.

Lemma occurrences_miss (m s : string) (c : ascii) :
  String.prefix m (String c s) = false ->
  occurrences m (String c s) = occurrences m s.
Proof. intros Hp. cbn [occurrences]. now rewrite Hp. Qed.

Lemma occurrences_logFragment_verbose log :
  occurrences "<details><summary>Log</summary>" log = 0%nat ->
  occurrences "<details><summary>Log</summary>" (logFragment true log) = 1%nat.
Proof.
  intros Hlog. unfold logFragment, logOpen, logClose, nl.
  rewrite ?append_assoc; rewrite ?append_cons, ?append_nil_l.
  rewrite occurrences_miss by reflexivity.
  rewrite occurrences_hit by reflexivity.
  rewrite !occurrences_miss by reflexivity.
  rewrite (occurrences_cut "details><summary>Log</summary>") by reflexivity.
  rewrite Hlog. rewrite !occurrences_miss by reflexivity. reflexivity.
Qed.

(** C6 (as amended). For a command other than Help the output is a body
    that depends neither on the log nor on the verbose flag, followed by the
    log fragment.  With verbose off the fragment is a single newline, so
    the output contains no "<details>" when the command token and the texts
    of the response contain none.  With verbose on the fragment is the
    "<details><summary>Log</summary>" block with the log verbatim inside
    its fence, and that opening sequence occurs exactly once in the output
    when the command token, the log and the texts of the response do not
    contain it. *)
Theorem log_inclusion (cmdString : CommandName -> string)
    (res : CommandResponse.t) (cmdName : CommandName) (log : string)
    (verbose : bool) :
  cmdName <> Help ->
  let cmd := GoStrings.Title (cmdString cmdName) in
  let out := Render cmdString res cmdName log verbose in
  (verbose = false ->
   out = bodyText cmd res +:+ nl /\
   (markerFree "<details>" (cmd :: responseTexts res) ->
    occurrences "<details>" out = 0%nat)) /\
  (verbose = true ->
   out = bodyText cmd res +:+ nl +:+ "<details><summary>Log</summary>" +:+ nl
         +:+ "  <p>" +:+ nl +:+ nl +:+ "```" +:+ nl
         +:+ log +:+ "```" +:+ nl +:+ "</p></details>" +:+ nl /\
   (markerFree "<details><summary>Log</summary>"
      (cmd :: log :: responseTexts res) ->
    occurrences "<details><summary>Log</summary>" out = 1%nat)).
Proof.
  intros Hcmd cmd out. unfold out. rewrite Render_text by exact Hcmd. fold cmd.
  split; intros ->.
  - split; [reflexivity|]. unfold markerFree. rewrite Forall_cons.
    intros [Hc Hres].
    rewrite (occurrences_bodyText "details>") by (reflexivity || assumption).
    reflexivity.
  - split; [reflexivity|]. unfold markerFree. rewrite !Forall_cons.
    intros (Hc & Hlog & Hres).
    rewrite (occurrences_bodyText "details><summary>Log</summary>")
      by (reflexivity || assumption).
    now apply occurrences_logFragment_verbose.
Qed.

Lemma log_inclusion_witness :
  occurrences "<details><summary>Log</summary>"
    (Render CommandName_String (CommandResponse.Build None "nope" []) Apply
       "xyz" true) = 1%nat.
Proof.
  refine (proj2 (proj2 (log_inclusion CommandName_String
            (CommandResponse.Build None "nope" []) Apply "xyz" true _) eq_refl) _).
  - discriminate.
  - repeat constructor.
Defined.

(** C6 as the spec states it fails: the renderer does not escape the texts
    it is given, so a failure text can bring "<details>" into a non-verbose
    output, and a log can bring a second opening sequence into a verbose
    one. *)
Lemma log_inclusion_counterexample :
  occurrences "<details>"
    (Render CommandName_String (CommandResponse.Build None "<details>" []) Plan
       "" false) = 1%nat /\
  occurrences "<details><summary>Log</summary>"
    (Render CommandName_String (CommandResponse.Build None "nope" []) Plan
       "<details><summary>Log</summary>" true) = 2%nat.
Proof. split; vm_compute; reflexivity. Qed.


(** * Further properties of the renderer *)

(** ** Exact texts of the global error and failure branches *)

(** A global error, whatever its message (the empty one included) and
    whatever the other fields of the response hold, is rendered as the error
    block of errWithLogTmpl followed by the log fragment. *)
Theorem Render_global_error_text (cmdString : CommandName -> string)
    (res : CommandResponse.t) (cmdName : CommandName) (log : string)
    (verbose : bool) (err : string) :
  cmdName <> Help ->
  CommandResponse.Error res = Some err ->
  Render cmdString res cmdName log verbose =
  "**" +:+ GoStrings.Title (cmdString cmdName) +:+ " Error**" +:+ nl
  +:+ "```" +:+ nl +:+ err +:+ nl +:+ "```" +:+ nl
  +:+ logFragment verbose log.
Proof.
  intros Hcmd Herr. rewrite Render_text by exact Hcmd.
  unfold bodyText. rewrite Herr. unfold errText.
  rewrite !append_assoc. reflexivity.
Qed.

Lemma Render_global_error_text_witness :
  Render CommandName_String
    (CommandResponse.Build (Some "") "nope"
       [ProjectResult.Build "a" None "" None "done"]) Apply "L" false
  = "**Apply Error**" +:+ nl +:+ "```" +:+ nl +:+ nl +:+ "```" +:+ nl +:+ nl.
Proof.
  refine (Render_global_error_text CommandName_String
            (CommandResponse.Build (Some "") "nope"
               [ProjectResult.Build "a" None "" None "done"])
            Apply "L" false "" _ eq_refl).
  discriminate.
Defined.

(** A global failure (no error, non-empty failure text) is rendered as the
    line of failureWithLogTmpl followed by the log fragment, whatever the
    project results are. *)
Theorem Render_global_failure_text (cmdString : CommandName -> string)
    (res : CommandResponse.t) (cmdName : CommandName) (log : string)
    (verbose : bool) :
  cmdName <> Help ->
  CommandResponse.Error res = None ->
  CommandResponse.Failure res <> "" ->
  Render cmdString res cmdName log verbose =
  "**" +:+ GoStrings.Title (cmdString cmdName) +:+ " Failed**: "
  +:+ CommandResponse.Failure res +:+ nl +:+ logFragment verbose log.
Proof.
  intros Hcmd Herr Hfail. rewrite Render_text by exact Hcmd.
  unfold bodyText. rewrite Herr. apply String.eqb_neq in Hfail. rewrite Hfail.
  cbn [negb]. unfold failureText. rewrite !append_assoc. reflexivity.
Qed.

Lemma Render_global_failure_text_witness :
  Render CommandName_String
    (CommandResponse.Build None "nope"
       [ProjectResult.Build "a" None "" None "done"]) Apply "xyz" true
  = "**Apply Failed**: nope" +:+ nl +:+ nl
    +:+ "<details><summary>Log</summary>" +:+ nl +:+ "  <p>" +:+ nl +:+ nl
    +:+ "```" +:+ nl +:+ "xyz```" +:+ nl +:+ "</p></details>" +:+ nl.
Proof.
  refine (Render_global_failure_text CommandName_String
            (CommandResponse.Build None "nope"
               [ProjectResult.Build "a" None "" None "done"])
            Apply "xyz" true _ eq_refl _); discriminate.
Defined.

(** ** Exact texts of the per-project templates *)

(** The text stored for a project result, for each populated field: the
    error block of errTmpl, the line of failureTmpl, the diff block and
    discard line of planSuccessTmpl, the diff block of applySuccessTmpl. *)
Theorem renderProjectResult_texts (common : CommonData) (r : ProjectResult.t) :
  (forall err,
      ProjectResult.Error r = Some err ->
      renderProjectResult common r =
      "**" +:+ Command common +:+ " Error**" +:+ nl +:+ "```" +:+ nl
      +:+ err +:+ nl +:+ "```" +:+ nl) /\
  (ProjectResult.Error r = None ->
   ProjectResult.Failure r <> "" ->
   renderProjectResult common r =
   "**" +:+ Command common +:+ " Failed**: " +:+ ProjectResult.Failure r +:+ nl) /\
  (forall plan,
      ProjectResult.Error r = None ->
      ProjectResult.Failure r = "" ->
      ProjectResult.PlanSuccess r = Some plan ->
      renderProjectResult common r =
      "```diff" +:+ nl +:+ PlanSuccess.TerraformOutput plan +:+ nl
      +:+ "```" +:+ nl +:+ nl +:+ "* To **discard** this plan click [here]("
      +:+ PlanSuccess.LockURL plan +:+ ").") /\
  (ProjectResult.Error r = None ->
   ProjectResult.Failure r = "" ->
   ProjectResult.PlanSuccess r = None ->
   ProjectResult.ApplySuccess r <> "" ->
   renderProjectResult common r =
   "```diff" +:+ nl +:+ ProjectResult.ApplySuccess r +:+ nl +:+ "```").
Proof.
  rewrite renderProjectResult_text. unfold projectText. repeat split.
  - intros err ->. reflexivity.
  - intros -> Hf%String.eqb_neq. now rewrite Hf.
  - intros plan -> -> ->. reflexivity.
  - intros -> -> -> Ha%String.eqb_neq. now rewrite Ha.
Qed.

Lemma renderProjectResult_texts_witness :
  renderProjectResult (commonData CommandName_String Apply "L" true)
    (ProjectResult.Build "a" None "" None "done")
  = "```diff" +:+ nl +:+ "done" +:+ nl +:+ "```".
Proof.
  refine (proj2 (proj2 (proj2 (renderProjectResult_texts
            (commonData CommandName_String Apply "L" true)
            (ProjectResult.Build "a" None "" None "done"))))
            eq_refl eq_refl eq_refl _).
  discriminate.
Defined.

(** ** What the per-project texts do not depend on *)

(** The per-project texts never carry the log: they depend on [common] only
    through the command token, and not even on that for a plan success, an
    apply success or the sentinel.  So does the map of results. *)
Theorem renderProjectResult_ignores_log (common common' : CommonData)
    (r : ProjectResult.t) (prs : list ProjectResult.t) :
  (Command common = Command common' ->
   renderProjectResult common r = renderProjectResult common' r /\
   collectResults common prs = collectResults common' prs) /\
  (ProjectResult.Error r = None ->
   ProjectResult.Failure r = "" ->
   renderProjectResult common r = renderProjectResult common' r).
Proof.
  split.
  - intros Hcmd. rewrite !renderProjectResult_text, !collectResults_resultsMap.
    now rewrite Hcmd.
  - intros Herr Hfail. rewrite !renderProjectResult_text. unfold projectText.
    now rewrite Herr, Hfail.
Qed.

Lemma renderProjectResult_ignores_log_witness :
  renderProjectResult (commonData CommandName_String Plan "L" true)
    (ProjectResult.Build "p" (Some "x") "" None "")
  = renderProjectResult (commonData CommandName_String Plan "" false)
      (ProjectResult.Build "p" (Some "x") "" None "").
Proof.
  exact (proj1 (proj1 (renderProjectResult_ignores_log
           (commonData CommandName_String Plan "L" true)
           (commonData CommandName_String Plan "" false)
           (ProjectResult.Build "p" (Some "x") "" None "") []) eq_refl)).
Defined.

(** ** The log and the verbose flag *)

Lemma prefix_refl (s : string) : String.prefix s s = true.
Proof. rewrite <- (append_nil_r s) at 2. apply prefix_append. Qed.

(** With verbose off the log does not enter the output, for any command;
    and the output with verbose on, for any log, extends the output with
    verbose off. *)
Theorem Render_verbose_extends (cmdString : CommandName -> string)
    (res : CommandResponse.t) (cmdName : CommandName) (log log' : string) :
  Render cmdString res cmdName log false
  = Render cmdString res cmdName log' false /\
  String.prefix (Render cmdString res cmdName log' false)
    (Render cmdString res cmdName log true) = true.
Proof.
  destruct (CommandName_eqb cmdName Help) eqn:E.
  - apply CommandName_eqb_eq in E. subst cmdName. rewrite !Render_help.
    split; [reflexivity|apply prefix_refl].
  - assert (Hcmd : cmdName <> Help) by (intros ->; discriminate).
    rewrite !Render_text by exact Hcmd. split; [reflexivity|].
    assert (Hopen : exists rest, logFragment true log = nl +:+ rest).
    { eexists. unfold logFragment, logOpen. rewrite !append_assoc. reflexivity. }
    destruct Hopen as [rest ->]. cbn [logFragment].
    rewrite <- append_assoc. apply prefix_append.
Qed.

Lemma endsWith_append (c : ascii) (s t : string) :
  t <> "" -> endsWith c (s +:+ t) = endsWith c t.
Proof.
  intros Ht. induction s as [|a s IH]; [reflexivity|].
  rewrite append_cons. cbn [endsWith].
  destruct (s +:+ t) eqn:Hst; [|exact IH].
  destruct s; [now rewrite append_nil_l in Hst|discriminate Hst].
Qed.

(** Every output ends with a newline. *)
Theorem Render_ends_with_newline (cmdString : CommandName -> string)
    (res : CommandResponse.t) (cmdName : CommandName) (log : string)
    (verbose : bool) :
  endsWith (ascii_of_N 10) (Render cmdString res cmdName log verbose) = true.
Proof.
  destruct (CommandName_eqb cmdName Help) eqn:E.
  - apply CommandName_eqb_eq in E. subst cmdName. rewrite Render_help.
    vm_compute. reflexivity.
  - rewrite Render_text by (intros ->; discriminate).
    rewrite endsWith_append by apply logFragment_nonempty.
    destruct verbose; [|reflexivity].
    unfold logFragment. rewrite <- append_assoc.
    rewrite endsWith_append by discriminate. reflexivity.
Qed.

(** ** The template-failure notice *)

(** [Render] never returns the notice of a failed template execution: no
    output begins with it, because every template it executes is executed
    on data that has the fields the template names. *)
Theorem Render_never_bug_notice (cmdString : CommandName -> string)
    (res : CommandResponse.t) (cmdName : CommandName) (log : string)
    (verbose : bool) :
  String.prefix "Failed to render template, this is a bug: "
    (Render cmdString res cmdName log verbose) = false.
Proof.
  destruct (CommandName_eqb cmdName Help) eqn:E.
  - apply CommandName_eqb_eq in E. subst cmdName. rewrite Render_help.
    reflexivity.
  - rewrite Render_text by (intros ->; discriminate). unfold bodyText.
    destruct (CommandResponse.Error res); [reflexivity|].
    destruct (negb _); [reflexivity|]. cbv zeta.
    destruct (Nat.eqb_spec
                (size (resultsMap (GoStrings.Title (cmdString cmdName))
                         (CommandResponse.ProjectResults res))) 1)
      as [Hone|_]; [|reflexivity].
    destruct (singleText_one _ _ Hone) as (r & _ & ->).
    unfold projectText.
    destruct (ProjectResult.Error r); [reflexivity|].
    destruct (negb _); [reflexivity|].
    destruct (ProjectResult.PlanSuccess r); [reflexivity|].
    destruct (negb _); reflexivity.
Qed.

(** ** The map of results and duplicate paths *)

(** The map built by the loop has an entry exactly for the paths of the
    input, and as many entries as the input has distinct paths. *)
Theorem collectResults_keys (common : CommonData) (prs : list ProjectResult.t)
    (k : string) :
  (collectResults common prs !! k = None <-> k ∉ paths prs) /\
  size (collectResults common prs) = length (remove_dups (paths prs)).
Proof.
  rewrite collectResults_resultsMap. split; [|apply size_resultsMap].
  rewrite <- not_elem_of_dom, dom_resultsMap, elem_of_list_to_set.
  reflexivity.
Qed.

Lemma collectResults_keys_witness :
  collectResults (commonData CommandName_String Plan "" false)
    [ProjectResult.Build "a" None "" None "x";
     ProjectResult.Build "a" None "" None "y"] !! "b" = None.
Proof.
  apply (proj1 (collectResults_keys (commonData CommandName_String Plan "" false)
                  [ProjectResult.Build "a" None "" None "x";
                   ProjectResult.Build "a" None "" None "y"] "b")).
  apply (bool_decide_unpack _). vm_compute. exact I.
Defined.

Lemma resultsMap_overwritten cmd before r after :
  ProjectResult.Path r ∈ paths after ->
  resultsMap cmd (before ++ r :: after) = resultsMap cmd (before ++ after).
Proof.
  intros Hin. unfold resultsMap.
  rewrite !entries_app, !rev_app_distr. cbn [entries map rev].
  fold (entries cmd after). rewrite <- app_assoc, !list_to_map_app.
  cbn [app list_to_map]. apply map_eq. intros k. rewrite !lookup_union.
  destruct (list_to_map (rev (entries cmd after)) !! k) as [v|] eqn:Hk.
  - now rewrite !union_Some_l.
  - assert (Hne : ProjectResult.Path r <> k).
    { intros <-. apply not_elem_of_list_to_map in Hk. apply Hk.
      now rewrite fst_rev_entries. }
    change (list_to_map [(ProjectResult.Path r, projectText cmd r)])
      with (<[ProjectResult.Path r := projectText cmd r]>
              (∅ : gmap string string)).
    rewrite lookup_insert_ne, lookup_empty by exact Hne.
    destruct (list_to_map (rev (entries cmd before)) !! k); reflexivity.
Qed.

(** A project result that is followed by one of the same path leaves no
    trace: the map of results, and so the output, is what it would be
    without it. *)
Theorem Render_overwritten_result (cmdString : CommandName -> string)
    (err : option string) (failure : string)
    (before after : list ProjectResult.t) (r : ProjectResult.t)
    (cmdName : CommandName) (log : string) (verbose : bool) :
  ProjectResult.Path r ∈ paths after ->
  collectResults (commonData cmdString cmdName log verbose) (before ++ r :: after)
  = collectResults (commonData cmdString cmdName log verbose) (before ++ after) /\
  Render cmdString (CommandResponse.Build err failure (before ++ r :: after))
    cmdName log verbose
  = Render cmdString (CommandResponse.Build err failure (before ++ after))
      cmdName log verbose.
Proof.
  intros Hin.
  assert (Hmap : forall common,
             collectResults common (before ++ r :: after)
             = collectResults common (before ++ after)).
  { intros common. rewrite !collectResults_resultsMap.
    now apply resultsMap_overwritten. }
  split; [apply Hmap|].
  unfold Render, renderProjectResults.
  cbn [CommandResponse.Error CommandResponse.Failure
       CommandResponse.ProjectResults].
  now rewrite Hmap.
Qed.

Lemma Render_overwritten_result_witness :
  Render CommandName_String
    (CommandResponse.Build None ""
       ([] ++ ProjectResult.Build "a" None "" None "x"
           :: [ProjectResult.Build "a" None "" None "y"])) Apply "" false
  = Render CommandName_String
      (CommandResponse.Build None ""
         ([] ++ [ProjectResult.Build "a" None "" None "y"])) Apply "" false.
Proof.
  refine (proj2 (Render_overwritten_result CommandName_String None "" []
            [ProjectResult.Build "a" None "" None "y"]
            (ProjectResult.Build "a" None "" None "x") Apply "" false _)).
  apply (bool_decide_unpack _). vm_compute. exact I.
Defined.

Lemma resultsMap_one_path cmd before r :
  (forall x, x ∈ before -> ProjectResult.Path x = ProjectResult.Path r) ->
  resultsMap cmd (before ++ [r])
  = {[ProjectResult.Path r := projectText cmd r]}.
Proof.
  intros Hsame. apply map_eq. intros k.
  destruct (decide (k = ProjectResult.Path r)) as [->|Hne].
  - rewrite lookup_singleton_eq. apply resultsMap_last_wins. apply not_elem_of_nil.
  - rewrite lookup_singleton_ne by congruence.
    apply (not_elem_of_dom (D := gset string)).
    rewrite dom_resultsMap, elem_of_list_to_set.
    unfold paths. rewrite list_elem_of_fmap. intros (x & -> & Hx).
    apply elem_of_app in Hx as [Hx|Hx%list_elem_of_singleton].
    + apply Hne. now apply Hsame.
    + now subst x.
Qed.

(** When all the project results have one path, the output is the text of
    the last of them, a newline and the log fragment: the path itself is not
    rendered and the earlier results do not show. *)
Theorem Render_single_path_text (cmdString : CommandName -> string)
    (res : CommandResponse.t) (cmdName : CommandName) (log : string)
    (verbose : bool) (before : list ProjectResult.t) (r : ProjectResult.t) :
  cmdName <> Help ->
  CommandResponse.Error res = None ->
  CommandResponse.Failure res = "" ->
  CommandResponse.ProjectResults res = before ++ [r] ->
  (forall x, x ∈ before -> ProjectResult.Path x = ProjectResult.Path r) ->
  Render cmdString res cmdName log verbose =
  renderProjectResult (commonData cmdString cmdName log verbose) r
  +:+ nl +:+ logFragment verbose log.
Proof.
  intros Hcmd Herr Hfail Hprs Hsame.
  rewrite Render_results_text by assumption. cbv zeta.
  rewrite Hprs, resultsMap_one_path by exact Hsame.
  rewrite map_size_singleton. cbn [Nat.eqb].
  rewrite renderProjectResult_text. cbn [commonData Command].
  destruct (sortedKeys_singleton
              {[ProjectResult.Path r :=
                  projectText (GoStrings.Title (cmdString cmdName)) r]})
    as (k & v & Hkeys & Hv); [apply map_size_singleton|].
  apply lookup_singleton_Some in Hv as [<- <-].
  unfold singleText, flatMap, mapIndex. rewrite Hkeys. cbn [foldr].
  rewrite lookup_singleton_eq. cbn [default].
  now rewrite append_nil_r, append_assoc.
Qed.

Lemma Render_single_path_text_witness :
  Render CommandName_String
    (CommandResponse.Build None ""
       ([ProjectResult.Build "p" None "" None "old"]
        ++ [ProjectResult.Build "p" (Some "x") "" None ""])) Plan "" false
  = renderProjectResult (commonData CommandName_String Plan "" false)
      (ProjectResult.Build "p" (Some "x") "" None "")
    +:+ nl +:+ logFragment false "".
Proof.
  refine (Render_single_path_text CommandName_String
            (CommandResponse.Build None ""
               ([ProjectResult.Build "p" None "" None "old"]
                ++ [ProjectResult.Build "p" (Some "x") "" None ""]))
            Plan "" false
            [ProjectResult.Build "p" None "" None "old"]
            (ProjectResult.Build "p" (Some "x") "" None "")
            _ eq_refl eq_refl eq_refl _).
  - discriminate.
  - intros x Hx%list_elem_of_singleton. now subst x.
Defined.
